(** * data-api-server: the query proxy of [src/main.py]

    A shallow embedding of the Flask service in [src/main.py] and the
    properties its specification states about it.

    The service is glue around three libraries: [requests] (HTTP calls to the
    upstream analytics platform), [pandas] (decoding of a parquet file) and
    [flask] (the inbound HTTP surface).  The embedding keeps the code of the
    repository and replaces the libraries by what the code observes of them:

    - a Python value that came out of a JSON document is a [json];
    - the upstream is a script of replies, consumed one per call, and every
      call and every [time.sleep] is recorded in a chronological trace;
    - the only shared mutable state is the module-level [application_status];
    - an uncaught Python exception is the outcome [Raise].

    Logging through [app.logger] has no influence on any value the code
    returns or on any call it makes, and is left out. *)

From Stdlib Require Import Ascii String QArith ZArith List Lia.
From stdpp Require Import gmap strings list pretty.

Local Set Warnings "-register-all".
Local Open Scope Z_scope.

(** ** Python values *)

Module Py.

(** A Python [float] as [json.loads] reads one: a finite value, or one of
    the three that are not ([1e999] reads as [inf], [NaN] as [nan]). *)
Inductive pyfloat :=
| Finite (q : Q)
| Infinity
| NegInfinity
| NaN.

(** The values [json.loads] produces: [None], [bool], [int], [float], [str],
    [list] and [dict] with [str] keys.  [JNull] is Python's [None] everywhere
    in this development. *)
Inductive json :=
| JNull
| JBool (b : bool)
| JInt (n : Z)
| JFloat (x : pyfloat)
| JStr (s : string)
| JArr (l : list json)
| JObj (d : gmap string json).

(** The exceptions the modelled code can meet. *)
Inductive exn :=
| JSONDecodeError      (* response.json() on a body that is not JSON *)
| AttributeError       (* .get on a value that is not a dict *)
| TypeError
| KeyError
| IndexError
| ValueError
| OverflowError        (* int() of an infinite float *)
| ConnectionError      (* requests could not obtain a response *)
| MissingSchema        (* requests.get on something that is not a URL *)
| ArrowInvalid         (* pd.read_parquet on bytes that are not parquet *)
| BadRequest.          (* flask: request.json on a body that is not JSON *)

Inductive outcome (A : Type) :=
| Ret (a : A)
| Raise (e : exn).
Arguments Ret {A} a.
Arguments Raise {A} e.

#[global] Instance outcome_ret : MRet outcome := @Ret.
#[global] Instance outcome_bind : MBind outcome := fun A B f m =>
  match m with
  | Ret a => f a
  | Raise e => Raise e
  end.

(** [bool(v)]: what [if v] and [not v] test. *)
Definition truthy (v : json) : bool :=
  match v with
  | JNull => false
  | JBool b => b
  | JInt n => negb (n =? 0)
  | JFloat (Finite q) => negb (Qeq_bool q 0)
  | JFloat _ => true
  | JStr s => negb (String.eqb s "")
  | JArr l => match l with [] => false | _ => true end
  | JObj d => negb (bool_decide (d = ∅))
  end.

(** [v == s] for a string literal [s]: only the [str] with the same
    characters is equal to it. *)
Definition eq_str (v : json) (s : string) : bool :=
  match v with
  | JStr t => String.eqb t s
  | _ => false
  end.

Fixpoint is_substring (needle hay : string) : bool :=
  String.prefix needle hay ||
  match hay with
  | EmptyString => false
  | String _ rest => is_substring needle rest
  end.

(** [key in v] for a string literal [key]: key membership of a dict, element
    membership of a list, substring test of a str, [TypeError] otherwise. *)
Definition contains (key : string) (v : json) : outcome bool :=
  match v with
  | JObj d => Ret (bool_decide (is_Some (d !! key)))
  | JArr l => Ret (existsb (fun x => eq_str x key) l)
  | JStr s => Ret (is_substring key s)
  | _ => Raise TypeError
  end.

(** [v[key]] for a string literal [key]. *)
Definition getitem (v : json) (key : string) : outcome json :=
  match v with
  | JObj d => match d !! key with
              | Some x => Ret x
              | None => Raise KeyError
              end
  | _ => Raise TypeError
  end.

(** [len(v)]. *)
Definition len (v : json) : outcome Z :=
  match v with
  | JObj d => Ret (Z.of_nat (size d))
  | JArr l => Ret (Z.of_nat (length l))
  | JStr s => Ret (Z.of_nat (String.length s))
  | _ => Raise TypeError
  end.

(** [v[0]].  The keys of a dict read from JSON are strings, so [0] is never
    one of them. *)
Definition first (v : json) : outcome json :=
  match v with
  | JArr (x :: _) => Ret x
  | JArr [] => Raise IndexError
  | JStr (String c _) => Ret (JStr (String c EmptyString))
  | JStr EmptyString => Raise IndexError
  | JObj _ => Raise KeyError
  | _ => Raise TypeError
  end.

(** [v.get(key)]: only a dict has the method. *)
Definition get (v : json) (key : string) : outcome json :=
  match v with
  | JObj d => Ret (default JNull (d !! key))
  | _ => Raise AttributeError
  end.

(** [v is None]. *)
Definition is_none (v : json) : bool :=
  match v with
  | JNull => true
  | _ => false
  end.

(** Python's [repr] of a float, a list or a dict is the interpreter's own
    formatting, not code of this repository: it is an interface of the
    model. *)
Class Repr := repr : json -> string.

(** What an f-string puts for [{v}]. *)
Definition format `{Repr} (v : json) : string :=
  match v with
  | JNull => "None"
  | JBool true => "True"
  | JBool false => "False"
  | JInt n => pretty n
  | JStr s => s
  | _ => repr v
  end.

(** Python's [int()] of a str, [None] for its [ValueError]: the white space
    it strips, the digits it reads (any Unicode decimal digit) and the
    length it refuses are the interpreter's own, not code of this
    repository: it is an interface of the model. *)
Class IntOfStr := int_of_str : string -> option Z.

(** [int(v)]: the interpreter's reading of a str, truncation of a finite
    float, [OverflowError] for an infinite one, [ValueError] for [nan],
    [TypeError] for [None], a list or a dict. *)
Definition int `{IntOfStr} (v : json) : outcome Z :=
  match v with
  | JInt n => Ret n
  | JBool b => Ret (if b then 1 else 0)
  | JFloat (Finite q) => Ret (Z.quot (Qnum q) (Zpos (Qden q)))
  | JFloat NaN => Raise ValueError
  | JFloat _ => Raise OverflowError
  | JStr s => match int_of_str s with
              | Some n => Ret n
              | None => Raise ValueError
              end
  | _ => Raise TypeError
  end.

(** A reading of plain decimal numerals, for the examples: surrounding ASCII
    white space, a sign, ASCII digits, single underscores between digits.
    On such texts it is what [int()] returns; it is not [int()]. *)
Definition is_space (c : ascii) : bool :=
  let n := nat_of_ascii c in
  ((9 <=? n) && (n <=? 13))%nat || (n =? 32)%nat.

Definition digit_of (c : ascii) : option Z :=
  let n := nat_of_ascii c in
  if ((48 <=? n) && (n <=? 57))%nat then Some (Z.of_nat n - 48) else None.

Fixpoint lstrip (s : string) : string :=
  match s with
  | String c rest => if is_space c then lstrip rest else s
  | EmptyString => s
  end.

Fixpoint rstrip (s : string) : string :=
  match s with
  | EmptyString => EmptyString
  | String c rest =>
      match rstrip rest with
      | EmptyString => if is_space c then EmptyString else String c EmptyString
      | r => String c r
      end
  end.

(** [digits acc s]: [s] continues a number whose digits so far make [acc];
    the previous character was a digit. *)
Fixpoint digits (acc : Z) (s : string) : option Z :=
  match s with
  | EmptyString => Some acc
  | String c rest =>
      match digit_of c with
      | Some d => digits (10 * acc + d) rest
      | None =>
          if Ascii.eqb c "_"
          then match rest with
               | String c' rest' =>
                   match digit_of c' with
                   | Some d => digits (10 * acc + d) rest'
                   | None => None
                   end
               | EmptyString => None
               end
          else None
      end
  end.

Definition unsigned_of_string (s : string) : option Z :=
  match s with
  | String c rest => d ← digit_of c; digits d rest
  | EmptyString => None
  end.

Definition decimal_of_string (s : string) : option Z :=
  match rstrip (lstrip s) with
  | String "-" rest => Z.opp <$> unsigned_of_string rest
  | String "+" rest => unsigned_of_string rest
  | t => unsigned_of_string t
  end.

End Py.
Export Py.

(** The characters a Rocq string literal cannot hold directly. *)
Definition nl : string := String (ascii_of_nat 10) EmptyString.
Definition tab : string := String (ascii_of_nat 9) EmptyString.
Definition dquote : string := String (ascii_of_nat 34) EmptyString.

(** ** Constants of the module (lines 13-19) *)

Definition APPLICATION_START_TIMEOUT : Z := 300.
Definition QUERY_EXECUTION_TIMEOUT : Z := 300.
Definition PAGE_SIZE : Z := 100.

(** ** Tables *)

(** A [pandas.DataFrame] as the code uses it: named columns and rows of
    cells.  A cell is held as the JSON value [to_json] renders it to; column
    names are distinct, as they are in a parquet file. *)
Record DataFrame := {
  columns : list string;
  rows : list (list json)
}.

(** [df.empty]: some axis has length zero. *)
Definition df_empty (df : DataFrame) : bool :=
  match rows df, columns df with
  | [], _ | _, [] => true
  | _, _ => false
  end.

(** [json.loads(df.to_json(orient="records", date_format="iso"))]: one dict
    per row, from column name to cell. *)
Definition to_records (df : DataFrame) : json :=
  JArr (map (fun row => JObj (list_to_map (zip (columns df) row))) (rows df)).

(** ** The upstream and the process state *)

Inductive verb := GET | POST.

(** The URLs the code builds, kept as their template and the values
    interpolated into it; [base_url] is the same constant in all of them. *)
Inductive endpoint :=
| Application                                             (* /explorer/application/ *)
| ApplicationStart                                        (* /explorer/application/start/ *)
| Queries                                                 (* /explorer/queries/ *)
| Execution (query_slug : string)                         (* /explorer/queries/{slug}/execution/ *)
| ExecutionStatus (query_slug : string) (execution_id : json)
                                                          (* .../execution/{id}/ *)
| ExecutionResults (query_slug : string) (execution_id : json)
                                                          (* .../execution/{id}/results/ *)
| Presigned (presigned_url : string).                     (* the URL of a result file *)

Record request := {
  method : verb;
  url : endpoint;
  x_api_key : option string;     (* headers={"x-api-key": api_key}, when passed *)
  payload : option json          (* json=..., when passed *)
}.

(** A [requests.Response].  [body_json] is what [response.json()] returns,
    [None] when it raises; [body_parquet] is what
    [pd.read_parquet(io.BytesIO(response.content))] returns, [None] when it
    raises. *)
Record response := {
  status_code : Z;
  text : string;
  body_json : option json;
  body_parquet : option DataFrame
}.

Inductive reply :=
| Reply (r : response)
| Unreachable.                   (* requests raises instead of returning *)

Inductive event :=
| Exchange (rq : request) (rp : reply)
| Sleep (seconds : Z).

(** [application_status] is the module-level variable of line 14; [upstream]
    holds the replies still to come, the first one answering the next call
    (when none is left the call fails like [Unreachable]); [trace] is what
    the process did so far, oldest first. *)
Record world := {
  application_status : option string;
  upstream : list reply;
  trace : list event
}.

Definition M (A : Type) : Type := world -> outcome A * world.

#[global] Instance M_ret : MRet M := fun A a w => (Ret a, w).
#[global] Instance M_bind : MBind M := fun A B f m w =>
  match m w with
  | (Ret a, w') => f a w'
  | (Raise e, w') => (Raise e, w')
  end.

(** A pure Python expression inside effectful code. *)
Definition lift {A} (o : outcome A) : M A := fun w => (o, w).

Definition record (e : event) (w : world) : world :=
  {| application_status := application_status w;
     upstream := upstream w;
     trace := trace w ++ [e] |}.

Definition advance (w : world) : world :=
  {| application_status := application_status w;
     upstream := tail (upstream w);
     trace := trace w |}.

(** [requests.get] and [requests.post]. *)
Definition send (rq : request) : M response := fun w =>
  match upstream w with
  | Reply r :: _ => (Ret r, record (Exchange rq (Reply r)) (advance w))
  | _ => (Raise ConnectionError, record (Exchange rq Unreachable) (advance w))
  end.

Definition requests_get (u : endpoint) (key : option string) : M response :=
  send {| method := GET; url := u; x_api_key := key; payload := None |}.

Definition requests_post (u : endpoint) (key : option string) (body : option json)
  : M response :=
  send {| method := POST; url := u; x_api_key := key; payload := body |}.

(** [time.sleep]. *)
Definition sleep (seconds : Z) : M unit := fun w => (Ret tt, record (Sleep seconds) w).

(** Reading and assigning the global [application_status]. *)
Definition read_application_status : M (option string) :=
  fun w => (Ret (application_status w), w).

Definition assign_application_status (v : option string) : M unit := fun w =>
  (Ret tt, {| application_status := v; upstream := upstream w; trace := trace w |}).

(** [response.json()]. *)
Definition response_json (r : response) : outcome json :=
  match body_json r with
  | Some v => Ret v
  | None => Raise JSONDecodeError
  end.

(** [response.status_code not in [200, 201]]. *)
Definition not_ok (r : response) : bool :=
  negb ((status_code r =? 200) || (status_code r =? 201)).

(** ** process_parquet_in_memory (lines 34-57) *)

(** The argument is whatever [results.get("presigned_url")] gave; [requests]
    refuses anything that is not a str. *)
Definition process_parquet_in_memory (presigned_url : json) : M (option DataFrame) :=
  match presigned_url with
  | JStr u =>
      response ← requests_get (Presigned u) None;
      if status_code response =? 200 then
        match body_parquet response with
        | Some df => mret (Some df)
        | None => lift (Raise ArrowInvalid)
        end
      else mret None
  | _ => lift (Raise MissingSchema)
  end.

(** ** ensure_application_running (lines 60-119) *)

Definition is_active (flag : option string) : bool :=
  match flag with
  | Some s => String.eqb s "active"
  | None => false
  end.

(** The loop of lines 99-111.  [remaining] is [max_retries - retry_count];
    the result is [None] when the loop body returned [False] (line 109) and
    the last [data] when the loop ended. *)
Fixpoint wait_until_active (api_key : string) (remaining : nat) (data : json)
  : M (option json) :=
  status ← lift (get data "status");
  if eq_str status "active" then mret (Some data) else
  match remaining with
  | O => mret (Some data)
  | S remaining' =>
      _ ← sleep 5;
      response ← requests_get Application (Some api_key);
      if not_ok response then mret None else
      data ← lift (response_json response);
      wait_until_active api_key remaining' data
  end.

Definition ensure_application_running (api_key : string) : M bool :=
  flag ← read_application_status;
  confirmed ←
    (if is_active flag then
       response ← requests_get Application (Some api_key);
       data ← lift (response_json response);
       status ← lift (get data "status");
       if eq_str status "active" then mret true
       else (_ ← assign_application_status None; mret false)
     else mret false);
  if (confirmed : bool) then mret true else
  response ← requests_post ApplicationStart (Some api_key) None;
  if not_ok response then mret false else
  data ← lift (response_json response);
  let check_interval := 5 in
  let max_retries := Z.to_nat (APPLICATION_START_TIMEOUT / check_interval) in
  polled ← wait_until_active api_key max_retries data;
  match polled with
  | None => mret false
  | Some data =>
      status ← lift (get data "status");
      if eq_str status "active" then
        _ ← assign_application_status (Some "active");
        mret true
      else mret false
  end.

(** ** execute_query (lines 122-260) *)

(** The condition
    ["errors" in error_obj and len(error_obj["errors"]) > 0
     and "detail" in error_obj["errors"][0]],
    evaluated left to right with [and] cutting short, and the value
    [error_obj["errors"][0]["detail"]] its branch assigns. *)
Definition errors_detail_present (error_obj : json) : outcome bool :=
  has_errors ← contains "errors" error_obj;
  if (has_errors : bool) then
    errors ← getitem error_obj "errors";
    n ← len errors;
    if 0 <? n then (entry ← first errors; contains "detail" entry) else Ret false
  else Ret false.

Definition errors_detail (error_obj : json) : outcome json :=
  errors ← getitem error_obj "errors";
  entry ← first errors;
  getitem entry "detail".

(** The bare [except:] of the three extraction blocks: whatever was raised
    inside [try], the message becomes the body text when there is one. *)
Definition or_text (response : response) (error_message : json) (tried : outcome json)
  : json :=
  match tried with
  | Ret m => m
  | Raise _ => if String.eqb (text response) "" then error_message
               else JStr (text response)
  end.

(** Lines 148-162: after the POST that triggers the execution. *)
Definition trigger_error_message (response : response) : json :=
  let error_message :=
    JStr ("Request failed with status code " +:+ pretty (status_code response)) in
  or_text response error_message
    (error_obj ← response_json response;
     in_errors ← errors_detail_present error_obj;
     if (in_errors : bool) then errors_detail error_obj else
     has_detail ← contains "detail" error_obj;
     if (has_detail : bool) then getitem error_obj "detail" else
     has_message ← contains "message" error_obj;
     if (has_message : bool) then getitem error_obj "message" else
     has_error ← contains "error" error_obj;
     if (has_error : bool) then getitem error_obj "error" else
     Ret error_message).

(** Lines 191-202: inside the polling loop. *)
Definition status_error_message (response : response) : json :=
  let error_message :=
    JStr ("Failed to check execution status: " +:+ pretty (status_code response)) in
  or_text response error_message
    (error_obj ← response_json response;
     in_errors ← errors_detail_present error_obj;
     if (in_errors : bool) then errors_detail error_obj else
     has_detail ← contains "detail" error_obj;
     if (has_detail : bool) then getitem error_obj "detail" else
     has_message ← contains "message" error_obj;
     if (has_message : bool) then getitem error_obj "message" else
     Ret error_message).

(** Lines 233-244: after the GET of the results descriptor. *)
Definition results_error_message (response : response) : json :=
  let error_message :=
    JStr ("Failed to get results: " +:+ pretty (status_code response)) in
  or_text response error_message
    (error_obj ← response_json response;
     in_errors ← errors_detail_present error_obj;
     if (in_errors : bool) then errors_detail error_obj else
     has_detail ← contains "detail" error_obj;
     if (has_detail : bool) then getitem error_obj "detail" else
     has_message ← contains "message" error_obj;
     if (has_message : bool) then getitem error_obj "message" else
     Ret error_message).

(** [execution.get("status") not in ["complete", "failed"]]. *)
Definition terminal (status : json) : bool :=
  eq_str status "complete" || eq_str status "failed".

(** The loop of lines 181-207.  [remaining] is [max_retries - retry_count];
    the result is [inl error_message] when the loop body returned
    [(None, error_message)] (line 205) and [inr execution] when the loop
    ended. *)
Fixpoint wait_for_execution (query_slug : string) (execution_id : json)
    (api_key : string) (remaining : nat) (execution : json) : M (json + json) :=
  status ← lift (get execution "status");
  if terminal status then mret (inr execution) else
  match remaining with
  | O => mret (inr execution)
  | S remaining' =>
      _ ← sleep 2;
      response ← requests_get (ExecutionStatus query_slug execution_id) (Some api_key);
      if not_ok response then mret (inl (status_error_message response)) else
      execution ← lift (response_json response);
      wait_for_execution query_slug execution_id api_key remaining' execution
  end.

(** The result is the pair [(df, error_message)] of the source. *)
Definition execute_query (query_slug : string) (page_number : Z) (api_key : string)
  : M (option DataFrame * json) :=
  response ← requests_post (Execution query_slug) (Some api_key)
               (Some (JObj {[ "page_number" := JInt page_number ]}));
  if not_ok response then mret (None, trigger_error_message response) else
  execution ← lift (response_json response);
  execution_id ← lift (get execution "id");
  response ← requests_get (ExecutionStatus query_slug execution_id) (Some api_key);
  execution ← lift (response_json response);
  let check_interval := 2 in
  let max_retries := Z.to_nat (QUERY_EXECUTION_TIMEOUT / check_interval) in
  waited ← wait_for_execution query_slug execution_id api_key max_retries execution;
  match waited with
  | inl error_message => mret (None, error_message)
  | inr execution =>
      status ← lift (get execution "status");
      if eq_str status "failed" then
        has_error ← lift (contains "error" execution);
        if (has_error : bool) then
          error_message ← lift (getitem execution "error");
          mret (None, error_message)
        else
          has_message ← lift (contains "message" execution);
          if (has_message : bool) then
            error_message ← lift (getitem execution "message");
            mret (None, error_message)
          else mret (None, JStr "Query execution failed")
      else if negb (eq_str status "complete") then
        mret (None, JStr ("Query execution timed out after "
                          +:+ pretty QUERY_EXECUTION_TIMEOUT +:+ "s"))
      else
        response ← requests_get (ExecutionResults query_slug execution_id)
                     (Some api_key);
        if not_ok response then mret (None, results_error_message response) else
        results ← lift (response_json response);
        presigned_url ← lift (get results "presigned_url");
        df ← process_parquet_in_memory presigned_url;
        (* lines 252-258: [df.empty] chooses the line that is logged, no more *)
        match df with
        | None => mret (None, JStr "Failed to process parquet file")
        | Some df => mret (Some df, JNull)
        end
  end.

(** ** create_query (lines 263-293) *)

(** The result is the slug, or [None]. *)
Definition create_query (sql_query : json) (api_key : string) : M json :=
  response ← requests_post Queries (Some api_key)
               (Some (JObj {[ "sql_query" := sql_query ]}));
  if not_ok response then mret JNull else
  query ← lift (response_json response);
  lift (get query "slug").

(** ** build_sql_query (lines 296-319) *)

Section Formatting.
Context `{Repr}.

Definition build_sql_query (layer table limit : json) : string :=
  let quoted_layer := dquote +:+ format layer +:+ dquote in
  let quoted_table := dquote +:+ format table +:+ dquote in
  let sql_query :=
    "SELECT" +:+ nl +:+ tab +:+ "*" +:+ nl +:+ "FROM" +:+ nl +:+ tab
    +:+ quoted_layer +:+ "." +:+ quoted_table in
  if negb (is_none limit) then sql_query +:+ nl +:+ "LIMIT " +:+ format limit
  else sql_query.

End Formatting.

(** ** create_query_and_return_slug (lines 322-342) *)

(** The result is the pair [(slug, error_message)] of the source. *)
Definition create_query_and_return_slug (sql_query : json) (api_key : string)
  : M (json * json) :=
  running ← ensure_application_running api_key;
  if negb running then mret (JNull, JStr "Failed to start application") else
  query_slug ← create_query sql_query api_key;
  if negb (truthy query_slug) then mret (JNull, JStr "Failed to create query") else
  mret (query_slug, JNull).

(** ** The HTTP surface (lines 22-31 and 345-466) *)

(** What a handler reads of [flask.request]. *)
Record http_request := {
  header_x_api_key : option string;   (* request.headers.get("x-api-key") *)
  request_json : option json;         (* request.json, None when flask refuses the body *)
  arg_page_number : option string     (* request.args.get("page_number") *)
}.

(** A status code and the JSON document of the body. *)
Record http_response := {
  http_status : Z;
  http_body : json
}.

(** [jsonify({"error": message}), code]. *)
Definition error_response (code : Z) (message : json) : http_response :=
  {| http_status := code; http_body := JObj {[ "error" := message ]} |}.

(** The decorator of lines 22-31; [g.api_key] reaches the handler as its
    first argument. *)
Definition require_api_key (f : string -> http_request -> M http_response)
  : http_request -> M http_response := fun req =>
  match header_x_api_key req with
  | Some api_key =>
      if String.eqb api_key "" then
        mret (error_response 401
                (JStr "Missing API key. Please provide 'x-api-key' header"))
      else f api_key req
  | None =>
      mret (error_response 401
              (JStr "Missing API key. Please provide 'x-api-key' header"))
  end.

(** [', '.join(l)]. *)
Definition join_comma (l : list string) : string :=
  match l with
  | [] => ""
  | x :: rest => fold_left (fun acc y => acc +:+ ", " +:+ y) rest x
  end.

(** [[param for param in ["layer", "table", "limit"] if param in data]]. *)
Fixpoint params_in (params : list string) (data : json) : outcome (list string) :=
  match params with
  | [] => Ret []
  | param :: rest =>
      here ← contains param data;
      others ← params_in rest data;
      Ret (if (here : bool) then param :: others else others)
  end.

Section Routes.
Context `{Repr} `{IntOfStr}.

(** Lines 364-401: the SQL text the request asks for, or the 400 response
    that refuses it. *)
Definition requested_sql_query (data : json) : outcome (http_response + json) :=
  sql_query ← get data "sql_query";
  if truthy sql_query then
    disallowed_params ← params_in ["layer"; "table"; "limit"] data;
    match disallowed_params with
    | [] => Ret (inr sql_query)
    | _ =>
        Ret (inl (error_response 400
          (JStr ("When 'sql_query' is provided, these parameters are not allowed: "
                 +:+ join_comma disallowed_params))))
    end
  else
    layer ← get data "layer";
    table ← get data "table";
    limit ← get data "limit";
    if negb (truthy layer) then
      Ret (inl (error_response 400
        (JStr "Missing required parameter 'layer' when 'sql_query' is not provided")))
    else if negb (truthy table) then
      Ret (inl (error_response 400
        (JStr "Missing required parameter 'table' when 'sql_query' is not provided")))
    else if negb (is_none limit) then
      match int limit with
      | Ret n =>
          if n <=? 0 then
            Ret (inl (error_response 400 (JStr "Limit must be a positive integer")))
          else Ret (inr (JStr (build_sql_query layer table (JInt n))))
      | Raise ValueError | Raise TypeError =>
          Ret (inl (error_response 400 (JStr "Limit must be a valid integer")))
      | Raise e => Raise e
      end
    else Ret (inr (JStr (build_sql_query layer table limit))).

(** The body of the route [POST /api/queries] (lines 347-418). *)
Definition create_query_endpoint (api_key : string) (req : http_request)
  : M http_response :=
  data ← lift (match request_json req with
               | Some data => Ret data
               | None => Raise BadRequest
               end);
  if negb (truthy data) then
    mret (error_response 400 (JStr "No JSON data provided")) else
  chosen ← lift (requested_sql_query data);
  match chosen with
  | inl refused => mret refused
  | inr sql_query =>
      '(query_slug, error) ← create_query_and_return_slug sql_query api_key;
      if is_none query_slug then mret (error_response 500 error) else
      mret {| http_status := 200;
              http_body := JObj {[ "query_slug" := query_slug;
                                   "sql_query" := sql_query;
                                   "status" := JStr "success";
                                   "message" := JStr "Query created successfully" ]} |}
  end.

(** The route as flask serves it. *)
Definition post_api_queries : http_request -> M http_response :=
  require_api_key create_query_endpoint.

End Routes.

Section Results.
Context `{IntOfStr}.

(** [int(request.args.get("page_number", 1))] of line 427; [None] stands for
    the [ValueError] line 430 catches. *)
Definition requested_page (req : http_request) : option Z :=
  match arg_page_number req with
  | Some s => int_of_str s
  | None => Some 1
  end.

(** The body of the route [GET /api/queries/<query_slug>/results]
    (lines 423-461). *)
Definition execute_query_endpoint (query_slug : string) (api_key : string)
    (req : http_request) : M http_response :=
  match requested_page req with
  | None => mret (error_response 400 (JStr "Page number must be a valid integer"))
  | Some page_number =>
      if page_number <? 1 then
        mret (error_response 400 (JStr "Page number must be a positive integer")) else
      running ← ensure_application_running api_key;
      if negb running then
        mret (error_response 500 (JStr "Failed to start application")) else
      '(df, error_message) ← execute_query query_slug page_number api_key;
      match df with
      | None =>
          mret {| http_status := 500;
                  http_body := JObj {[ "error" := JStr "Query execution failed";
                                       "query_slug" := JStr query_slug;
                                       "page_number" := JInt page_number;
                                       "details" := error_message ]} |}
      | Some df =>
          mret {| http_status := 200;
                  http_body := JObj {[ "query_slug" := JStr query_slug;
                                       "page" := JInt page_number;
                                       "data" := to_records df ]} |}
      end
  end.

Definition get_api_queries_results (query_slug : string)
  : http_request -> M http_response :=
  require_api_key (execute_query_endpoint query_slug).

End Results.

(** The route [GET /api/health] (lines 464-466). *)
Definition health_check (req : http_request) : M http_response :=
  mret {| http_status := 200; http_body := JObj {[ "status" := JStr "ok" ]} |}.

(** * Vocabulary of the statements *)

(** The response carries a JSON object whose [status] is the given string. *)
Definition reports (status : string) (r : response) : Prop :=
  exists d, body_json r = Some (JObj d) /\ d !! "status" = Some (JStr status).

(** [data.get("status")] of an object. *)
Definition status_of (d : gmap string json) : json := default JNull (d !! "status").

(** All elements of a list but its last one. *)
Fixpoint all_but_last {A} (P : A -> Prop) (l : list A) : Prop :=
  match l with
  | [] => True
  | x :: rest => match rest with
                 | [] => True
                 | _ => P x /\ all_but_last P rest
                 end
  end.

(** ** Runs of ensure_application_running *)

Definition status_request (api_key : string) : request :=
  {| method := GET; url := Application; x_api_key := Some api_key; payload := None |}.

Definition start_request (api_key : string) : request :=
  {| method := POST; url := ApplicationStart; x_api_key := Some api_key;
     payload := None |}.

(** What the loop of lines 99-111 leaves in the trace for the replies it
    received: a sleep of five seconds before each status GET. *)
Definition poll_events (api_key : string) (rps : list reply) : list event :=
  flat_map (fun rp => [Sleep 5; Exchange (status_request api_key) rp]) rps.

(** The only kind of reply after which the loop polls again: a 200 or 201
    whose status is not yet "active". *)
Definition keeps_waiting (rp : reply) : Prop :=
  exists r d, rp = Reply r /\ not_ok r = false /\ body_json r = Some (JObj d) /\
              eq_str (status_of d) "active" = false.

(** The readiness flag holds one of its two documented values. *)
Definition flag_ok (w : world) : Prop :=
  application_status w = None \/ application_status w = Some "active".

(** Everything a run of the loop determines: how many replies it took, what
    it left in the trace, and how its result relates to the last reply. *)
Definition waited (key : string) (n : nat) (data : json) (w : world)
    (o : outcome (option json)) (w' : world) (rps : list reply) : Prop :=
  (length rps <= n)%nat /\
  trace w' = trace w ++ poll_events key rps /\
  upstream w' = drop (length rps) (upstream w) /\
  application_status w' = application_status w /\
  all_but_last keeps_waiting rps /\
  (rps <> [] -> exists d, data = JObj d /\ eq_str (status_of d) "active" = false) /\
  (forall data', o = Ret (Some data') ->
     (rps = [] /\ data' = data) \/
     (exists r, last rps = Some (Reply r) /\ not_ok r = false /\
                body_json r = Some data')) /\
  (forall r, last rps = Some (Reply r) -> not_ok r = true -> o = Ret None) /\
  (o = Ret None -> exists r, last rps = Some (Reply r) /\ not_ok r = true).

(** Lines 84-119: what ensure_application_running does once the cached flag
    did not settle the call. *)
Definition start_application (api_key : string) : M bool :=
  response ← requests_post ApplicationStart (Some api_key) None;
  if not_ok response then mret false else
  data ← lift (response_json response);
  let check_interval := 5 in
  let max_retries := Z.to_nat (APPLICATION_START_TIMEOUT / check_interval) in
  polled ← wait_until_active api_key max_retries data;
  match polled with
  | None => mret false
  | Some data =>
      status ← lift (get data "status");
      if eq_str status "active" then
        _ ← assign_application_status (Some "active");
        mret true
      else mret false
  end.

(** The world after one exchange. *)
Definition exchanged (rq : request) (rp : reply) (w : world) : world :=
  record (Exchange rq rp) (advance w).

(** The world after line 82. *)
Definition reset (w : world) : world :=
  {| application_status := None; upstream := upstream w; trace := trace w |}.

(** Everything a run of lines 84-119 determines. *)
Definition started (key : string) (w : world) (o : outcome bool) (w' : world)
    (start : reply) (rps : list reply) : Prop :=
  trace w' = trace w ++ Exchange (start_request key) start :: poll_events key rps /\
  upstream w' = drop (S (length rps)) (upstream w) /\
  (length rps <= 60)%nat /\
  all_but_last keeps_waiting rps /\
  (forall r, last rps = Some (Reply r) -> not_ok r = true -> o = Ret false) /\
  (o = Ret true ->
     application_status w' = Some "active" /\
     exists r, last (start :: rps) = Some (Reply r) /\ reports "active" r) /\
  (o <> Ret true -> application_status w' = application_status w).

Definition is_exchange (e : event) : Prop :=
  match e with
  | Exchange _ _ => True
  | Sleep _ => False
  end.

(** Everything a call of ensure_application_running determines: the
    exchanges [pre] before the polling phase, the replies [rps] to its polls,
    and how result and flag follow from them. *)
Definition ensured (key : string) (w : world) (o : outcome bool) (w' : world)
    (pre : list event) (rps : list reply) : Prop :=
  trace w' = trace w ++ pre ++ poll_events key rps /\
  Forall is_exchange pre /\
  (length pre <= 2)%nat /\
  (length rps <= 60)%nat /\
  all_but_last keeps_waiting rps /\
  (forall r, last rps = Some (Reply r) -> not_ok r = true -> o = Ret false) /\
  (o = Ret true ->
     application_status w' = Some "active" /\
     exists evs rq r, trace w' = trace w ++ evs ++ [Exchange rq (Reply r)] /\
                      reports "active" r) /\
  (o = Ret false -> is_active (application_status w') = false) /\
  (application_status w' = application_status w \/
   application_status w' = None \/
   (application_status w' = Some "active" /\ o = Ret true)).

(** An action that leaves the readiness flag as it found it. *)
Definition frames {A} (m : M A) : Prop :=
  forall w, application_status (m w).2 = application_status w.

(** An action that keeps the readiness flag within its documented values. *)
Definition keeps_flag {A} (m : M A) : Prop :=
  forall w, flag_ok w -> flag_ok (m w).2.

(** ** Sample replies and worlds *)

Definition quoted (s : string) : string := dquote +:+ s +:+ dquote.

(** A response whose body is the JSON text [body], read as [v]. *)
Definition json_response (code : Z) (body : string) (v : json) : response :=
  {| status_code := code; text := body; body_json := Some v;
     body_parquet := None |}.

(** A response whose body is the object [{"status": s}]. *)
Definition status_response (code : Z) (s : string) : response :=
  json_response code ("{" +:+ quoted "status" +:+ ": " +:+ quoted s +:+ "}")
    (JObj {[ "status" := JStr s ]}).

Definition status_reply (code : Z) (s : string) : reply :=
  Reply (status_response code s).

(** The answer to the POST that triggers an execution: [{"id": 7}]. *)
Definition triggered : response :=
  json_response 201 ("{" +:+ quoted "id" +:+ ": 7}") (JObj {[ "id" := JInt 7 ]}).

(** A process that has not confirmed the application yet, and one that
    has, each before the given replies. *)
Definition idle (replies : list reply) : world :=
  {| application_status := None; upstream := replies; trace := [] |}.

Definition ready (replies : list reply) : world :=
  {| application_status := Some "active"; upstream := replies; trace := [] |}.

#[local] Instance sample_repr : Repr := fun _ => "?".

(** The numerals of the examples are plain decimal ones. *)
#[local] Instance sample_int : IntOfStr := decimal_of_string.

(** ** Runs of execute_query *)

Definition trigger_request (slug : string) (page : Z) (key : string) : request :=
  {| method := POST; url := Execution slug; x_api_key := Some key;
     payload := Some (JObj {[ "page_number" := JInt page ]}) |}.

Definition execution_request (slug : string) (id : json) (key : string) : request :=
  {| method := GET; url := ExecutionStatus slug id; x_api_key := Some key;
     payload := None |}.

Definition results_request (slug : string) (id : json) (key : string) : request :=
  {| method := GET; url := ExecutionResults slug id; x_api_key := Some key;
     payload := None |}.

Definition download_request (u : string) : request :=
  {| method := GET; url := Presigned u; x_api_key := None; payload := None |}.

(** What the loop of lines 181-207 leaves in the trace for the responses it
    received: a sleep of two seconds before each status GET. *)
Definition execution_polls (slug : string) (id : json) (key : string)
    (polls : list response) : list event :=
  flat_map (fun r => [Sleep 2; Exchange (execution_request slug id key) (Reply r)])
    polls.

(** [execution.get("status")] of the object a response carries. *)
Definition object_status (r : response) : option json :=
  match body_json r with
  | Some (JObj d) => Some (status_of d)
  | _ => None
  end.

(** The status GET of line 173 answered by [r] and the polls of the loop
    answered by [polls] in turn: every response carries a JSON object, every
    poll has status code 200 or 201, no status but the last is "complete" or
    "failed", and the last status passes [q]. *)
Fixpoint polled (q : json -> bool) (r : response) (polls : list response) : bool :=
  match object_status r with
  | None => false
  | Some status =>
      match polls with
      | [] => q status
      | p :: polls' => negb (terminal status) && negb (not_ok p) && polled q p polls'
      end
  end.

Definition pending (status : json) : bool := negb (terminal status).
Definition complete (status : json) : bool := eq_str status "complete".

(** The world once execute_query has had the given replies to its POST, to
    its first status GET and to its polls. *)
Definition polled_world (slug : string) (page : Z) (key : string) (id : json)
    (rp r0 : response) (polls : list response) (rest : list reply) (w : world)
  : world :=
  {| application_status := application_status w;
     upstream := rest;
     trace := trace w ++ Exchange (trigger_request slug page key) (Reply rp)
                      :: Exchange (execution_request slug id key) (Reply r0)
                      :: execution_polls slug id key polls |}.

(** Lines 209-260: what execute_query does with the outcome of its loop. *)
Definition after_polling (query_slug : string) (execution_id : json)
    (api_key : string) (waited : json + json) : M (option DataFrame * json) :=
  match waited with
  | inl error_message => mret (None, error_message)
  | inr execution =>
      status ← lift (get execution "status");
      if eq_str status "failed" then
        has_error ← lift (contains "error" execution);
        if (has_error : bool) then
          error_message ← lift (getitem execution "error");
          mret (None, error_message)
        else
          has_message ← lift (contains "message" execution);
          if (has_message : bool) then
            error_message ← lift (getitem execution "message");
            mret (None, error_message)
          else mret (None, JStr "Query execution failed")
      else if negb (eq_str status "complete") then
        mret (None, JStr ("Query execution timed out after "
                          +:+ pretty QUERY_EXECUTION_TIMEOUT +:+ "s"))
      else
        response ← requests_get (ExecutionResults query_slug execution_id)
                     (Some api_key);
        if not_ok response then mret (None, results_error_message response) else
        results ← lift (response_json response);
        presigned_url ← lift (get results "presigned_url");
        df ← process_parquet_in_memory presigned_url;
        match df with
        | None => mret (None, JStr "Failed to process parquet file")
        | Some df => mret (Some df, JNull)
        end
  end.

(** ** The error message of a refused call *)

(** [errors[0].detail] of an object whose [errors] is a list starting with
    an object. *)
Definition first_error_detail (d : gmap string json) : option json :=
  match d !! "errors" with
  | Some (JArr (JObj entry :: _)) => entry !! "detail"
  | _ => None
  end.

(** The precedence as the specification words it, (a) to (f): the first of
    [errors[0].detail], [detail], [message], [error], the body text and the
    generic message that is there. *)
Definition documented_message (generic : json) (r : response) : json :=
  let top key :=
    match body_json r with
    | Some (JObj d) => d !! key
    | _ => None
    end in
  let first_detail :=
    match body_json r with
    | Some (JObj d) => first_error_detail d
    | _ => None
    end in
  match first_detail with Some v => v | None =>
  match top "detail" with Some v => v | None =>
  match top "message" with Some v => v | None =>
  match top "error" with Some v => v | None =>
  if String.eqb (text r) "" then generic else JStr (text r)
  end end end end.

(** The precedence of the polling loop and of the results fetch: a body that
    is a JSON object gives the first of [errors[0].detail], [detail] and
    [message] that is there, and the generic message when none is; a body
    that is not JSON gives its text, and the generic message when it is
    empty. *)
Definition extracted (generic : json) (r : response) : json :=
  match body_json r with
  | Some (JObj d) =>
      match first_error_detail d with Some v => v | None =>
      match d !! "detail" with Some v => v | None =>
      match d !! "message" with Some v => v | None =>
      generic
      end end end
  | _ => if String.eqb (text r) "" then generic else JStr (text r)
  end.

(** [errors] is absent, an empty list, or a list starting with an object. *)
Definition plain_errors (d : gmap string json) : bool :=
  match d !! "errors" with
  | None | Some (JArr []) | Some (JArr (JObj _ :: _)) => true
  | Some _ => false
  end.

(** The bodies [extracted] speaks about: not JSON at all, or an object with
    [plain_errors] that offers one of (a) to (c) or has no top-level
    [error]. *)
Definition in_scope (r : response) : bool :=
  match body_json r with
  | None => true
  | Some (JObj d) =>
      plain_errors d &&
      (bool_decide (is_Some (first_error_detail d))
       || bool_decide (is_Some (d !! "detail"))
       || bool_decide (is_Some (d !! "message"))
       || negb (bool_decide (is_Some (d !! "error"))))
  | Some _ => false
  end.

Definition status_generic (r : response) : json :=
  JStr ("Failed to check execution status: " +:+ pretty (status_code r)).

Definition results_generic (r : response) : json :=
  JStr ("Failed to get results: " +:+ pretty (status_code r)).

(** [404 {"detail": "Not found"}]. *)
Definition not_found : response :=
  json_response 404 ("{" +:+ quoted "detail" +:+ ": " +:+ quoted "Not found" +:+ "}")
    (JObj {[ "detail" := JStr "Not found" ]}).

(** [500 {"code": 42}]: an object with none of the documented fields. *)
Definition unexplained : response :=
  json_response 500 ("{" +:+ quoted "code" +:+ ": 42}") (JObj {[ "code" := JInt 42 ]}).

(** [500 {"error": "boom"}]. *)
Definition boom : response :=
  json_response 500 ("{" +:+ quoted "error" +:+ ": " +:+ quoted "boom" +:+ "}")
    (JObj {[ "error" := JStr "boom" ]}).

(** The results descriptor [{"presigned_url": "https://files.example/page.parquet"}]. *)
Definition descriptor : response :=
  json_response 200
    ("{" +:+ quoted "presigned_url" +:+ ": "
     +:+ quoted "https://files.example/page.parquet" +:+ "}")
    (JObj {[ "presigned_url" := JStr "https://files.example/page.parquet" ]}).

(** A parquet file with two columns and no rows, and its download. *)
Definition no_rows : DataFrame := {| columns := ["id"; "amount"]; rows := [] |}.

Definition downloaded : response :=
  {| status_code := 200; text := "PAR1"; body_json := None;
     body_parquet := Some no_rows |}.

(** A download the file store refuses. *)
Definition forbidden : response :=
  {| status_code := 403; text := "AccessDenied"; body_json := None;
     body_parquet := None |}.

(** A process that has just started the application with credential "k". *)
Definition started_by_k (replies : list reply) : world :=
  {| application_status := Some "active";
     upstream := replies;
     trace := [Exchange (start_request "k") (status_reply 200 "active")] |}.

(** A request with credential "k" and no page number. *)
Definition first_page_request : http_request :=
  {| header_x_api_key := Some "k"; request_json := None; arg_page_number := None |}.

(** ** Texts and requests of the query-creation route *)

(** A text given by the code points of its characters. *)
Definition text_of (codes : list nat) : string :=
  string_of_list_ascii (map ascii_of_nat codes).

(** [SELECT\n\t*\nFROM\n\t] *)
Definition select_star_from : string :=
  text_of [83; 69; 76; 69; 67; 84; 10; 9; 42; 10; 70; 82; 79; 77; 10; 9]%nat.

(** [SELECT\n\t*\nFROM\n\t"raw"."orders"] *)
Definition select_raw_orders : string :=
  text_of [83; 69; 76; 69; 67; 84; 10; 9; 42; 10; 70; 82; 79; 77; 10; 9;
           34; 114; 97; 119; 34; 46; 34; 111; 114; 100; 101; 114; 115; 34]%nat.

(** [\nLIMIT 10] *)
Definition limit_ten : string :=
  text_of [10; 76; 73; 77; 73; 84; 32; 49; 48]%nat.

Definition create_request (sql : json) (key : string) : request :=
  {| method := POST; url := Queries; x_api_key := Some key;
     payload := Some (JObj {[ "sql_query" := sql ]}) |}.

(** The same request without its [x-api-key] header. *)
Definition without_key (req : http_request) : http_request :=
  {| header_x_api_key := None;
     request_json := request_json req;
     arg_page_number := arg_page_number req |}.

Definition missing_api_key : http_response :=
  error_response 401 (JStr "Missing API key. Please provide 'x-api-key' header").

(** The parameters of the table mode a body carries, in the order the
    route lists them. *)
Definition supplied (d : gmap string json) : list string :=
  List.filter (fun param => bool_decide (is_Some (d !! param)))
    ["layer"; "table"; "limit"].

(** [201 {"slug": "abc"}]. *)
Definition created : response :=
  json_response 201 ("{" +:+ quoted "slug" +:+ ": " +:+ quoted "abc" +:+ "}")
    (JObj {[ "slug" := JStr "abc" ]}).

(** A POST with credential "k" and the given JSON body. *)
Definition post_with (body : json) : http_request :=
  {| header_x_api_key := Some "k"; request_json := Some body;
     arg_page_number := None |}.

(** * Vocabulary of the further properties *)

(** ** The triggering POST and the end of an execution *)

Definition trigger_generic (r : response) : json :=
  JStr ("Request failed with status code " +:+ pretty (status_code r)).

(** The precedence of lines 148-162: as [extracted], with a top-level
    [error] consulted after [message]. *)
Definition extracted_with_error (generic : json) (r : response) : json :=
  match body_json r with
  | Some (JObj d) =>
      match first_error_detail d with Some v => v | None =>
      match d !! "detail" with Some v => v | None =>
      match d !! "message" with Some v => v | None =>
      match d !! "error" with Some v => v | None =>
      generic
      end end end end
  | _ => if String.eqb (text r) "" then generic else JStr (text r)
  end.

(** The body is not JSON, or an object with [plain_errors]. *)
Definition readable (r : response) : bool :=
  match body_json r with
  | None => true
  | Some (JObj d) => plain_errors d
  | Some _ => false
  end.

Definition failed (status : json) : bool := eq_str status "failed".

(** Lines 210-214: the message of a failed execution. *)
Definition failure_message (d : gmap string json) : json :=
  match d !! "error" with Some v => v | None =>
  match d !! "message" with Some v => v | None =>
  JStr "Query execution failed"
  end end.

(** The body of the 500 of lines 444-450. *)
Definition execution_error (slug : string) (page : Z) (details : json)
  : http_response :=
  {| http_status := 500;
     http_body := JObj {[ "error" := JStr "Query execution failed";
                          "query_slug" := JStr slug;
                          "page_number" := JInt page;
                          "details" := details ]} |}.

(** A GET of the results route with credential "k" and the given page. *)
Definition page_request (page : option string) : http_request :=
  {| header_x_api_key := Some "k"; request_json := None; arg_page_number := page |}.

(** [200 {"status": "failed", "message": "syntax error"}]. *)
Definition failing : response :=
  json_response 200
    ("{" +:+ quoted "status" +:+ ": " +:+ quoted "failed" +:+ ", "
     +:+ quoted "message" +:+ ": " +:+ quoted "syntax error" +:+ "}")
    (JObj {[ "status" := JStr "failed"; "message" := JStr "syntax error" ]}).

(** ** Polls of execute_query, reply by reply *)

Definition execution_poll_events (slug : string) (id : json) (key : string)
    (rps : list reply) : list event :=
  flat_map (fun rp => [Sleep 2; Exchange (execution_request slug id key) rp]) rps.

(** The only kind of reply after which the loop of lines 181-207 polls
    again: a 200 or 201 whose status is neither "complete" nor "failed". *)
Definition keeps_polling (rp : reply) : Prop :=
  exists r d, rp = Reply r /\ not_ok r = false /\ body_json r = Some (JObj d) /\
              terminal (status_of d) = false.

(** The response carries a JSON object whose status is "complete" or
    "failed". *)
Definition settled (r : response) : Prop :=
  exists d, body_json r = Some (JObj d) /\ terminal (status_of d) = true.

(** Everything a run of the loop of lines 181-207 determines. *)
Definition polled_run (slug : string) (id : json) (key : string) (n : nat)
    (w w' : world) (rps : list reply) : Prop :=
  (length rps <= n)%nat /\
  trace w' = trace w ++ execution_poll_events slug id key rps /\
  all_but_last keeps_polling rps.

(** ** The result file *)

(** A download whose bytes are not a parquet file. *)
Definition corrupt : response :=
  {| status_code := 200; text := "<html>"; body_json := None;
     body_parquet := None |}.

(** A results descriptor without [presigned_url]: [200 {}]. *)
Definition bare_descriptor : response := json_response 200 "{}" (JObj ∅).

(** The replies that bring execute_query to the descriptor [rd]. *)
Definition up_to_descriptor (rd : response) : list reply :=
  [Reply triggered; status_reply 200 "complete"; Reply rd].

(** ** Starting the application *)

(** The start POST answered by [r] and the polls of lines 99-111 answered by
    [polls] in turn: every response carries a JSON object, every poll has
    status code 200 or 201, no status but the last is "active", and the last
    status passes [q]. *)
Fixpoint awaited (q : json -> bool) (r : response) (polls : list response) : bool :=
  match object_status r with
  | None => false
  | Some status =>
      match polls with
      | [] => q status
      | p :: polls' =>
          negb (eq_str status "active") && negb (not_ok p) && awaited q p polls'
      end
  end.

Definition shows_active (status : json) : bool := eq_str status "active".
Definition shows_inactive (status : json) : bool := negb (eq_str status "active").

(** The world once ensure_application_running has had the given replies to
    its start POST and to its polls, with the flag it ends on. *)
Definition started_world (key : string) (flag : option string)
    (rs : response) (polls : list response) (rest : list reply) (w : world)
  : world :=
  {| application_status := flag;
     upstream := rest;
     trace := trace w ++ Exchange (start_request key) (Reply rs)
                      :: poll_events key (map Reply polls) |}.

(** A reply from which no status can be read: none at all, a body that is
    not JSON, or JSON that is not an object. *)
Definition unreadable (rp : reply) : bool :=
  match rp with
  | Unreachable => true
  | Reply r => match body_json r with
               | Some (JObj _) => false
               | _ => true
               end
  end.

(** [502] with an HTML page. *)
Definition bad_gateway : response :=
  {| status_code := 502; text := "<html>Bad Gateway</html>"; body_json := None;
     body_parquet := None |}.

(** ** The query-creation route *)

Definition not_started : http_response :=
  error_response 500 (JStr "Failed to start application").

(** The body of the 200 of lines 411-418. *)
Definition query_created_response (slug sql : json) : http_response :=
  {| http_status := 200;
     http_body := JObj {[ "query_slug" := slug;
                          "sql_query" := sql;
                          "status" := JStr "success";
                          "message" := JStr "Query created successfully" ]} |}.

(** [200 {"name": "q1"}]: a creation answer without [slug]. *)
Definition nameless : response :=
  json_response 200 ("{" +:+ quoted "name" +:+ ": " +:+ quoted "q1" +:+ "}")
    (JObj {[ "name" := JStr "q1" ]}).

(** The 400s of lines 386-398. *)
Definition missing_parameter (name : string) : http_response :=
  error_response 400
    (JStr ("Missing required parameter '" +:+ name
           +:+ "' when 'sql_query' is not provided")).

Definition limit_not_positive : http_response :=
  error_response 400 (JStr "Limit must be a positive integer").

Definition limit_not_integer : http_response :=
  error_response 400 (JStr "Limit must be a valid integer").

(** [d.get(key)]. *)
Definition field (d : gmap string json) (key : string) : json :=
  default JNull (d !! key).

(** ** What the routes send *)

(** An action whose events all satisfy [P]. *)
Definition emits (P : event -> Prop) {A} (m : M A) : Prop :=
  forall w, exists evs, trace (m w).2 = trace w ++ evs /\ Forall P evs.

(** What the creation route may do for a request with header [key]: sleep
    five seconds, and call the application or the query collection with
    that header. *)
Definition creation_call (key : option string) (e : event) : Prop :=
  match e with
  | Sleep n => n = 5
  | Exchange rq _ =>
      x_api_key rq = key /\
      (url rq = Application \/ url rq = ApplicationStart \/ url rq = Queries)
  end.

(** What the results route may do for the slug [slug] and a request with
    header [key]: sleep five or two seconds, call the application or the
    executions of that slug with that header, and fetch a result file with
    no header at all. *)
Definition results_call (slug : string) (key : option string) (e : event) : Prop :=
  match e with
  | Sleep n => n = 5 \/ n = 2
  | Exchange rq _ =>
      match url rq with
      | Application | ApplicationStart => x_api_key rq = key
      | Execution s | ExecutionStatus s _ | ExecutionResults s _ =>
          s = slug /\ x_api_key rq = key
      | Presigned _ => x_api_key rq = None /\ method rq = GET /\ payload rq = None
      | Queries => False
      end
  end.

(** ** Before the polls of ensure_application_running *)

(** What ensure_application_running sends before its polling loop: the
    confirmation GET, if any, and then the start POST, if any. *)
Definition before_polling (key : string) (pre : list event) : Prop :=
  exists confirm start,
    pre = confirm ++ start /\
    (confirm = [] \/ exists rp, confirm = [Exchange (status_request key) rp]) /\
    (start = [] \/ exists rp, start = [Exchange (start_request key) rp]).

(** * Proofs *)

Ltac unfold_monad :=
  unfold mbind, mret, M_bind, M_ret, outcome_bind, outcome_ret, lift in *.

Lemma eq_str_true v s : eq_str v s = true <-> v = JStr s.
Proof.
  destruct v; simpl; try (split; [discriminate | congruence]).
  rewrite String.eqb_eq. split; congruence.
Qed.

Lemma get_object d key : get (JObj d) key = Ret (default JNull (d !! key)).
Proof. reflexivity. Qed.

Lemma get_ret v key x : get v key = Ret x -> exists d, v = JObj d /\ x = default JNull (d !! key).
Proof. destruct v; simpl; try discriminate. intros [= <-]. eauto. Qed.

Lemma response_json_ret r v : response_json r = Ret v <-> body_json r = Some v.
Proof.
  unfold response_json. destruct (body_json r); split; congruence.
Qed.

Lemma reports_active r d :
  body_json r = Some (JObj d) -> eq_str (status_of d) "active" = true ->
  reports "active" r.
Proof.
  intros Hb Hs. exists d. split; [assumption|].
  apply eq_str_true in Hs. unfold status_of in Hs.
  destruct (d !! "status"); simpl in Hs; congruence.
Qed.

(** ** The loop of ensure_application_running *)

#[local] Arguments wait_until_active : simpl never.
#[local] Arguments wait_for_execution : simpl never.

Lemma wait_until_active_unfold key n data :
  wait_until_active key n data =
  (status ← lift (get data "status");
   if eq_str status "active" then mret (Some data) else
   match n with
   | O => mret (Some data)
   | S remaining' =>
       _ ← sleep 5;
       response ← requests_get Application (Some key);
       if not_ok response then mret None else
       data ← lift (response_json response);
       wait_until_active key remaining' data
   end).
Proof. destruct n; reflexivity. Qed.

Lemma waited_nil key n data w o :
  o <> Ret None -> (forall data', o = Ret (Some data') -> data' = data) ->
  waited key n data w o w [].
Proof.
  intros Ho Hd. unfold waited. simpl. rewrite app_nil_r. split_and!.
  - lia.
  - reflexivity.
  - reflexivity.
  - reflexivity.
  - exact I.
  - congruence.
  - intros data' ->. left. split; [reflexivity|]. apply Hd. reflexivity.
  - discriminate.
  - congruence.
Qed.

Lemma waited_one key n d w rp o w' :
  eq_str (status_of d) "active" = false ->
  w' = record (Exchange (status_request key) rp) (advance (record (Sleep 5) w)) ->
  (forall data', o <> Ret (Some data')) ->
  (forall r, rp = Reply r -> not_ok r = true -> o = Ret None) ->
  (o = Ret None -> exists r, rp = Reply r /\ not_ok r = true) ->
  waited key (S n) (JObj d) w o w' [rp].
Proof.
  intros Hs -> Hsome Hbad Hnone. unfold waited. simpl.
  rewrite <- app_assoc. simpl. split_and!.
  - lia.
  - reflexivity.
  - destruct (upstream w); reflexivity.
  - reflexivity.
  - exact I.
  - eauto.
  - intros data' ->. exfalso. eapply Hsome. reflexivity.
  - intros r [= ->]. eauto.
  - intros Ho. destruct (Hnone Ho) as (r & -> & Hr). eauto.
Qed.

Lemma wait_until_active_run key n : forall data w o w',
  wait_until_active key n data w = (o, w') ->
  exists rps, waited key n data w o w' rps.
Proof.
  induction n as [|n IH]; intros data w o w' Hrun;
    rewrite wait_until_active_unfold in Hrun; unfold_monad.
  - exists []. destruct (get data "status") as [st|e];
      [destruct (eq_str st "active")|]; inversion Hrun; subst;
      apply waited_nil; congruence.
  - destruct (get data "status") as [st|e] eqn:Hget.
    2:{ exists []. inversion Hrun; subst. apply waited_nil; congruence. }
    destruct (eq_str st "active") eqn:Hst.
    { exists []. inversion Hrun; subst. apply waited_nil; congruence. }
    apply get_ret in Hget as (d & -> & ->). fold (status_of d) in Hst.
    unfold sleep, requests_get, send in Hrun. simpl in Hrun.
    fold (status_request key) in Hrun.
    assert (Hleaf : forall rp o,
      (forall data', o <> Ret (Some data')) ->
      (forall r, rp = Reply r -> not_ok r = true -> o = Ret None) ->
      (o = Ret None -> exists r, rp = Reply r /\ not_ok r = true) ->
      waited key (S n) (JObj d) w o
        (record (Exchange (status_request key) rp) (advance (record (Sleep 5) w)))
        [rp]).
    { intros. apply waited_one; auto. }
    destruct (upstream w) as [|[r|] rest] eqn:Hup; simpl in Hrun.
    + exists [Unreachable]. inversion Hrun; subst.
      apply Hleaf; intros; congruence.
    + destruct (not_ok r) eqn:Hok.
      { exists [Reply r]. inversion Hrun; subst.
        apply Hleaf; try (intros; congruence). eauto. }
      destruct (response_json r) as [d'|e] eqn:Hjson.
      2:{ exists [Reply r]. inversion Hrun; subst.
          apply Hleaf; intros; congruence. }
      apply response_json_ret in Hjson.
      apply IH in Hrun
        as (rps & Hlen & Htr & Hu & Hf & Hall & Hne & Hsome & Hbad & Hnone).
      simpl in Htr, Hu, Hf.
      exists (Reply r :: rps). unfold waited. simpl.
      rewrite Htr, Hu, Hf, Hup, <- !app_assoc. simpl. split_and!.
      * lia.
      * reflexivity.
      * reflexivity.
      * reflexivity.
      * destruct rps as [|rp rps]; [exact I|]. split; [|assumption].
        destruct Hne as (d'' & -> & Hact); [discriminate|].
        exists r, d''. auto.
      * eauto.
      * intros data' Ho. right.
        destruct (Hsome _ Ho) as [[-> ->]|(r' & Hl & Hr')].
        -- exists r. auto.
        -- exists r'. split; [|assumption].
           destruct rps; [discriminate|assumption].
      * intros r' Hl Hr'. destruct rps as [|rp rps].
        -- injection Hl as <-. congruence.
        -- eauto.
      * intros Ho. destruct (Hnone Ho) as (r' & Hl & Hr'). exists r'.
        split; [|assumption]. destruct rps; [discriminate|assumption].
    + exists [Unreachable]. inversion Hrun; subst.
      apply Hleaf; intros; congruence.
Qed.

(** ** ensure_application_running *)

Lemma ensure_application_running_unfold key :
  ensure_application_running key =
  (flag ← read_application_status;
   confirmed ←
     (if is_active flag then
        response ← requests_get Application (Some key);
        data ← lift (response_json response);
        status ← lift (get data "status");
        if eq_str status "active" then mret true
        else (_ ← assign_application_status None; mret false)
      else mret false);
   if (confirmed : bool) then mret true else start_application key).
Proof. reflexivity. Qed.

Lemma start_application_run key w o w' :
  start_application key w = (o, w') ->
  exists start rps, started key w o w' start rps.
Proof.
  unfold start_application, requests_post, send. unfold_monad.
  fold (start_request key). intros Hrun.
  assert (Hleaf : forall rp o,
    o <> Ret true ->
    started key w o (exchanged (start_request key) rp w) rp []).
  { intros rp o' Ho. unfold started, exchanged. simpl.
    split_and!; try done; lia. }
  destruct (upstream w) as [|[r|] rest] eqn:Hup; simpl in Hrun.
  - exists Unreachable, []. inversion Hrun; subst. apply Hleaf. congruence.
  - destruct (not_ok r) eqn:Hok.
    { exists (Reply r), []. inversion Hrun; subst. apply Hleaf. congruence. }
    destruct (response_json r) as [data|e] eqn:Hjson.
    2:{ exists (Reply r), []. inversion Hrun; subst. apply Hleaf. congruence. }
    apply response_json_ret in Hjson.
    destruct (wait_until_active key _ data _) as [polled w1] eqn:Hwait.
    apply wait_until_active_run in Hwait
      as (rps & Hlen & Htr & Hu & Hf & Hall & Hne & Hsome & Hbad & Hnone).
    simpl in Htr, Hu, Hf. change (Z.to_nat _) with 60%nat in Hlen.
    exists (Reply r), rps. unfold started.
    assert (Hflag : o <> Ret true -> application_status w' = application_status w).
    { intros Ho. destruct polled as [[data'|]|e]; [|congruence..].
      destruct (get data' "status") as [st|e]; [|congruence].
      destruct (eq_str st "active"); [|congruence].
      unfold assign_application_status in Hrun. simpl in Hrun. congruence. }
    assert (Htrace : trace w' = trace w1 /\ upstream w' = upstream w1).
    { destruct polled as [[data'|]|e]; [|inversion Hrun; subst; auto..].
      destruct (get data' "status") as [st|e]; [|inversion Hrun; subst; auto].
      destruct (eq_str st "active"); inversion Hrun; subst; auto. }
    destruct Htrace as [-> ->]. rewrite Htr, Hu, Hup, <- app_assoc. simpl.
    split_and!; try done.
    + intros r' Hl Hr'. rewrite (Hbad _ Hl Hr') in Hrun. congruence.
    + intros ->. destruct polled as [[data'|]|e]; [|congruence..].
      destruct (get data' "status") as [st|e] eqn:Hget; [|congruence].
      destruct (eq_str st "active") eqn:Hst; [|congruence].
      unfold assign_application_status in Hrun. simpl in Hrun.
      injection Hrun as <-. split; [reflexivity|].
      apply get_ret in Hget as (d & -> & ->).
      destruct (Hsome _ eq_refl) as [[-> <-]|(r' & Hl & Hr' & Hb)].
      * exists r. split; [reflexivity|]. eapply reports_active; eassumption.
      * exists r'. split; [|eapply reports_active; eassumption].
        destruct rps; [discriminate|assumption].
  - exists Unreachable, []. inversion Hrun; subst. apply Hleaf. congruence.
Qed.

Lemma ensure_not_cached key w :
  is_active (application_status w) = false ->
  ensure_application_running key w = start_application key w.
Proof.
  intros Hflag. rewrite ensure_application_running_unfold.
  unfold read_application_status. unfold_monad. rewrite Hflag. reflexivity.
Qed.

(** With the flag set, the call is settled by the reply to the confirmation
    GET: it returns [True], or clears the flag and starts over, or lets the
    exception of a reply it cannot read escape. *)
Lemma ensure_cached key w :
  is_active (application_status w) = true ->
  let rp := hd Unreachable (upstream w) in
  let w1 := exchanged (status_request key) rp w in
  (exists r, rp = Reply r /\ reports "active" r /\
             ensure_application_running key w = (Ret true, w1)) \/
  (exists r d, rp = Reply r /\ body_json r = Some (JObj d) /\
               eq_str (status_of d) "active" = false /\
               ensure_application_running key w = start_application key (reset w1)) \/
  (exists e, ensure_application_running key w = (Raise e, w1)).
Proof.
  intros Hflag. rewrite ensure_application_running_unfold.
  unfold read_application_status, requests_get, send. unfold_monad.
  rewrite Hflag. fold (status_request key). unfold exchanged.
  destruct (upstream w) as [|[r|] rest] eqn:Hup; simpl.
  - right. right. eauto.
  - destruct (response_json r) as [data|e] eqn:Hjson; [|right; right; eauto].
    apply response_json_ret in Hjson.
    destruct (get data "status") as [st|e] eqn:Hget; [|right; right; eauto].
    apply get_ret in Hget as (d & -> & ->). fold (status_of d).
    destruct (eq_str (status_of d) "active") eqn:Hst.
    + left. exists r. split_and!; try done. eapply reports_active; eassumption.
    + right. left. exists r, d. split_and!; try done.
  - right. right. eauto.
Qed.

Lemma poll_events_app key l1 l2 :
  poll_events key (l1 ++ l2) = poll_events key l1 ++ poll_events key l2.
Proof. unfold poll_events. apply flat_map_app. Qed.

Lemma poll_events_last key rps rp :
  last rps = Some rp ->
  exists evs, poll_events key rps = evs ++ [Exchange (status_request key) rp].
Proof.
  intros Hl. apply last_Some in Hl as [init ->].
  exists (poll_events key init ++ [Sleep 5]).
  rewrite poll_events_app, <- app_assoc. reflexivity.
Qed.

Lemma started_ensured key w0 w o w' start rps pre0 :
  started key w o w' start rps ->
  trace w = trace w0 ++ pre0 -> Forall is_exchange pre0 -> (length pre0 <= 1)%nat ->
  (application_status w = application_status w0 \/ application_status w = None) ->
  is_active (application_status w) = false ->
  ensured key w0 o w' (pre0 ++ [Exchange (start_request key) start]) rps.
Proof.
  intros (Htr & Hu & Hlen & Hall & Hbad & Htrue & Hflag) Hw Hpre Hlen0 Hf Hact.
  unfold ensured. rewrite Htr, Hw, <- !app_assoc. simpl. split_and!.
  - reflexivity.
  - apply Forall_app. split; [assumption|]. repeat constructor.
  - rewrite length_app. simpl. lia.
  - assumption.
  - assumption.
  - assumption.
  - intros Ho. destruct (Htrue Ho) as (Hs & r & Hl & Hr). split; [assumption|].
    destruct rps as [|rp rps].
    + injection Hl as ->. exists pre0, (start_request key), r. auto.
    + change (last (start :: rp :: rps)) with (last (rp :: rps)) in Hl.
      apply (poll_events_last key) in Hl as [evs ->].
      exists (pre0 ++ Exchange (start_request key) start :: evs), (status_request key), r.
      rewrite <- !app_assoc. auto.
  - intros Ho. rewrite Hflag by congruence. assumption.
  - assert (Ho : o = Ret true \/ o <> Ret true).
    { destruct o as [[|]|e]; auto; right; congruence. }
    destruct Ho as [Ho|Ho].
    + right. right. split; [|assumption]. apply Htrue. assumption.
    + rewrite (Hflag Ho). destruct Hf as [->| ->]; auto.
Qed.

Lemma ensure_application_running_run key w o w' :
  ensure_application_running key w = (o, w') ->
  exists pre rps, ensured key w o w' pre rps.
Proof.
  intros Hrun.
  destruct (is_active (application_status w)) eqn:Hflag.
  - destruct (ensure_cached key w Hflag)
      as [(r & Hrp & Hr & He)|[(r & d & Hrp & Hb & Hs & He)|(e & He)]];
      rewrite He in Hrun.
    + injection Hrun as <- <-. exists [Exchange (status_request key) (Reply r)], [].
      rewrite Hrp. unfold ensured, exchanged. simpl. split_and!; try done.
      * repeat constructor.
      * lia.
      * lia.
      * intros _. split.
        -- destruct (application_status w) as [s|]; [|discriminate].
           simpl in Hflag. apply String.eqb_eq in Hflag. congruence.
        -- exists [], (status_request key), r. auto.
      * auto.
    + apply start_application_run in Hrun as (start & rps & Hst).
      exists ([Exchange (status_request key) (Reply r)]
              ++ [Exchange (start_request key) start]), rps.
      eapply started_ensured; [eassumption|..]; rewrite ?Hrp; simpl; auto.
      repeat constructor.
    + injection Hrun as <- <-.
      exists [Exchange (status_request key) (hd Unreachable (upstream w))], [].
      unfold ensured, exchanged. simpl. split_and!; try done.
      * repeat constructor.
      * lia.
      * lia.
      * auto.
  - rewrite (ensure_not_cached key w Hflag) in Hrun.
    apply start_application_run in Hrun as (start & rps & Hst).
    exists ([] ++ [Exchange (start_request key) start]), rps.
    eapply started_ensured; [eassumption|..]; simpl; auto.
    rewrite app_nil_r. reflexivity.
Qed.

(** The same run, with what comes before the polls spelled out. *)
Lemma ensure_application_running_shape key w o w' :
  ensure_application_running key w = (o, w') ->
  exists pre rps, ensured key w o w' pre rps /\ before_polling key pre.
Proof.
  intros Hrun.
  destruct (is_active (application_status w)) eqn:Hflag.
  - destruct (ensure_cached key w Hflag)
      as [(r & Hrp & Hr & He)|[(r & d & Hrp & Hb & Hs & He)|(e & He)]];
      rewrite He in Hrun.
    + injection Hrun as <- <-.
      exists [Exchange (status_request key) (Reply r)], []. split.
      * rewrite Hrp. unfold ensured, exchanged. simpl. split_and!; try done.
        -- repeat constructor.
        -- lia.
        -- lia.
        -- intros _. split.
           ++ destruct (application_status w) as [s|]; [|discriminate].
              simpl in Hflag. apply String.eqb_eq in Hflag. congruence.
           ++ exists [], (status_request key), r. auto.
        -- auto.
      * exists [Exchange (status_request key) (Reply r)], [].
        split_and!; [reflexivity|right; eauto|left; reflexivity].
    + apply start_application_run in Hrun as (start & rps & Hst).
      exists ([Exchange (status_request key) (Reply r)]
              ++ [Exchange (start_request key) start]), rps. split.
      * eapply started_ensured; [eassumption|..]; rewrite ?Hrp; simpl; auto.
        repeat constructor.
      * exists [Exchange (status_request key) (Reply r)],
          [Exchange (start_request key) start].
        split_and!; [reflexivity|right; eauto|right; eauto].
    + injection Hrun as <- <-.
      exists [Exchange (status_request key) (hd Unreachable (upstream w))], [].
      split.
      * unfold ensured, exchanged. simpl. split_and!; try done.
        -- repeat constructor.
        -- lia.
        -- lia.
        -- auto.
      * exists [Exchange (status_request key) (hd Unreachable (upstream w))], [].
        split_and!; [reflexivity|right; eauto|left; reflexivity].
  - rewrite (ensure_not_cached key w Hflag) in Hrun.
    apply start_application_run in Hrun as (start & rps & Hst).
    exists ([] ++ [Exchange (start_request key) start]), rps. split.
    + eapply started_ensured; [eassumption|..]; simpl; auto.
      rewrite app_nil_r. reflexivity.
    + exists [], [Exchange (start_request key) start].
      split_and!; [reflexivity|left; reflexivity|right; eauto].
Qed.

(** ** The readiness flag is written by ensure_application_running only *)

Lemma frames_ret {A} (a : A) : frames (mret a).
Proof. intros w. reflexivity. Qed.

Lemma frames_lift {A} (o : outcome A) : frames (lift o).
Proof. intros w. reflexivity. Qed.

Lemma frames_send rq : frames (send rq).
Proof. intros w. unfold send. destruct (upstream w) as [|[r|] rest]; reflexivity. Qed.

Lemma frames_sleep n : frames (sleep n).
Proof. intros w. reflexivity. Qed.

Lemma frames_bind {A B} (m : M A) (f : A -> M B) :
  frames m -> (forall a, frames (f a)) -> frames (m ≫= f).
Proof.
  intros Hm Hf w. specialize (Hm w). unfold mbind, M_bind.
  destruct (m w) as [[a|e] w1]; simpl in *; [|assumption].
  rewrite Hf. assumption.
Qed.

Create HintDb frame.
#[local] Hint Resolve frames_ret frames_lift frames_send frames_sleep : frame.

Ltac frame :=
  repeat first
    [ progress auto with frame
    | apply frames_bind; [|intros ?]
    | match goal with
      | |- frames (if ?b then _ else _) => destruct b
      | |- frames (match ?x with _ => _ end) => destruct x
      | |- frames (let '(_, _) := ?x in _) => destruct x
      end ].

Lemma frames_wait_for_execution slug id key n :
  forall execution, frames (wait_for_execution slug id key n execution).
Proof.
  induction n as [|n IH]; intros execution.
  - unfold wait_for_execution. frame.
  - change (wait_for_execution slug id key (S n) execution) with
      (status ← lift (get execution "status");
       if terminal status then mret (inr execution) else
       _ ← sleep 2;
       response ← requests_get (ExecutionStatus slug id) (Some key);
       if not_ok response then mret (inl (status_error_message response)) else
       execution ← lift (response_json response);
       wait_for_execution slug id key n execution).
    unfold requests_get. frame.
Qed.
#[local] Hint Resolve frames_wait_for_execution : frame.

Lemma frames_process_parquet_in_memory u : frames (process_parquet_in_memory u).
Proof. unfold process_parquet_in_memory, requests_get. frame. Qed.
#[local] Hint Resolve frames_process_parquet_in_memory : frame.

Lemma frames_execute_query slug page key : frames (execute_query slug page key).
Proof. unfold execute_query, requests_get, requests_post. frame. Qed.

Lemma frames_create_query sql key : frames (create_query sql key).
Proof. unfold create_query, requests_post. frame. Qed.
#[local] Hint Resolve frames_execute_query frames_create_query : frame.

Lemma frames_keeps_flag {A} (m : M A) : frames m -> keeps_flag m.
Proof. intros Hm w Hw. unfold flag_ok. rewrite Hm. exact Hw. Qed.

Lemma keeps_flag_bind {A B} (m : M A) (f : A -> M B) :
  keeps_flag m -> (forall a, keeps_flag (f a)) -> keeps_flag (m ≫= f).
Proof.
  intros Hm Hf w Hw. specialize (Hm w Hw). unfold mbind, M_bind.
  destruct (m w) as [[a|e] w1]; simpl in *; [|assumption].
  apply Hf. assumption.
Qed.

Lemma keeps_flag_ensure key : keeps_flag (ensure_application_running key).
Proof.
  intros w Hw. destruct (ensure_application_running key w) as [o w'] eqn:Hrun.
  apply ensure_application_running_run in Hrun as (pre & rps & Hrun).
  destruct Hrun as (_ & _ & _ & _ & _ & _ & _ & _ & [Hf|[Hf|[Hf _]]]);
    unfold flag_ok in *; simpl; rewrite Hf; auto.
Qed.

Ltac keep_flag :=
  repeat first
    [ apply keeps_flag_ensure
    | apply frames_keeps_flag; solve [frame]
    | apply keeps_flag_bind; [|intros ?]
    | match goal with
      | |- keeps_flag (if ?b then _ else _) => destruct b
      | |- keeps_flag (match ?x with _ => _ end) => destruct x
      | |- keeps_flag (let '(_, _) := ?x in _) => destruct x
      end ].

Lemma keeps_flag_create_query_and_return_slug sql key :
  keeps_flag (create_query_and_return_slug sql key).
Proof. unfold create_query_and_return_slug. keep_flag. Qed.

Lemma keeps_flag_require_api_key f req :
  (forall key, keeps_flag (f key req)) -> keeps_flag (require_api_key f req).
Proof.
  intros Hf. unfold require_api_key.
  destruct (header_x_api_key req) as [key|]; [destruct (String.eqb key "")|];
    auto; apply frames_keeps_flag; frame.
Qed.

Lemma keeps_flag_post_api_queries `{Repr} `{IntOfStr} req : keeps_flag (post_api_queries req).
Proof.
  apply keeps_flag_require_api_key. intros key. unfold create_query_endpoint.
  keep_flag.
Qed.

Lemma keeps_flag_get_api_queries_results `{IntOfStr} slug req :
  keeps_flag (get_api_queries_results slug req).
Proof.
  apply keeps_flag_require_api_key. intros key. unfold execute_query_endpoint.
  keep_flag.
Qed.

Lemma reports_status r d s :
  reports s r -> body_json r = Some (JObj d) -> status_of d = JStr s.
Proof.
  intros (d' & Hb & Hs) Hd. rewrite Hb in Hd. injection Hd as ->.
  unfold status_of. rewrite Hs. reflexivity.
Qed.

Lemma ensure_confirmed key w r rest :
  is_active (application_status w) = true ->
  upstream w = Reply r :: rest ->
  reports "active" r ->
  ensure_application_running key w
  = (Ret true, exchanged (status_request key) (Reply r) w).
Proof.
  intros Hflag Hup (d & Hb & Hs). rewrite ensure_application_running_unfold.
  unfold read_application_status, requests_get, send, response_json. unfold_monad.
  rewrite Hflag, Hup. simpl. rewrite Hb. simpl. rewrite Hs. reflexivity.
Qed.

Lemma ensure_disagrees key w r d rest :
  is_active (application_status w) = true ->
  upstream w = Reply r :: rest ->
  body_json r = Some (JObj d) ->
  eq_str (status_of d) "active" = false ->
  ensure_application_running key w
  = ensure_application_running key (reset (exchanged (status_request key) (Reply r) w)).
Proof.
  intros Hflag Hup Hb Hs. rewrite (ensure_not_cached key (reset _)) by reflexivity.
  rewrite ensure_application_running_unfold.
  unfold read_application_status, requests_get, send, response_json. unfold_monad.
  rewrite Hflag, Hup. simpl. rewrite Hb. simpl. fold (status_of d). rewrite Hs.
  reflexivity.
Qed.

Lemma all_but_last_lookup {A} (P : A -> Prop) l : forall i x,
  all_but_last P l -> l !! i = Some x -> (S i < length l)%nat -> P x.
Proof.
  induction l as [|y l IH]; intros i x Hall Hi Hlen; [discriminate|].
  destruct l as [|z l]; [simpl in Hlen; lia|].
  destruct Hall as [Hy Hall]. destruct i as [|i].
  - injection Hi as <-. assumption.
  - apply (IH i); [assumption|exact Hi|simpl in *; lia].
Qed.

Lemma keeps_waiting_reply r :
  keeps_waiting (Reply r) -> not_ok r = false /\ ~ reports "active" r.
Proof.
  intros (r' & d & [= <-] & Hok & Hb & Hs). split; [assumption|].
  intros Hr. rewrite (reports_status _ _ _ Hr Hb) in Hs. discriminate.
Qed.

(** C9.  All that a call of ensure_application_running does is this: it
    sends at most the confirmation GET and then the start POST, and then
    polls the application status at most floor(300/5) = 60 times, each poll
    after a sleep of five seconds; a poll that reports "active" or comes
    back with a status code outside 200 and 201 is the last one, and after
    such a status code the call returns [False]. *)
Theorem polling_phase_bounded (key : string) (w : world) :
  exists pre rps,
    trace (ensure_application_running key w).2
    = trace w ++ pre ++ poll_events key rps /\
    Forall is_exchange pre /\
    (length pre <= 2)%nat /\
    before_polling key pre /\
    Z.of_nat (length rps) <= APPLICATION_START_TIMEOUT / 5 /\
    (forall i r, rps !! i = Some (Reply r) ->
                 reports "active" r \/ not_ok r = true -> S i = length rps) /\
    (forall r, last rps = Some (Reply r) -> not_ok r = true ->
               (ensure_application_running key w).1 = Ret false).
Proof.
  destruct (ensure_application_running key w) as [o w'] eqn:Hrun.
  apply ensure_application_running_shape in Hrun
    as (pre & rps & (Htr & Hpre & Hlenpre & Hlen & Hall & Hbad & _) & Hshape).
  exists pre, rps. simpl. split_and!; try assumption.
  - change (APPLICATION_START_TIMEOUT / 5) with 60. lia.
  - intros i r Hi Hr. pose proof (lookup_lt_Some _ _ _ Hi) as Hlt.
    destruct (decide (S i = length rps)) as [|Hne]; [assumption|].
    exfalso. assert (Hk : keeps_waiting (Reply r)).
    { apply (all_but_last_lookup _ rps i); [assumption..|lia]. }
    apply keeps_waiting_reply in Hk as [Hok Hact].
    destruct Hr; [contradiction|congruence].
Qed.

(** C5.  The readiness flag is one variable for all credentials: once a call
    with credential [A] has returned [True], a call with any credential [B]
    whose confirmation GET is answered "active" returns [True] after that
    single GET, sent with [B], and never posts a start. *)
Theorem flag_shared_across_credentials
    (A B : string) (w w1 : world) (r : response) (rest : list reply) :
  ensure_application_running A w = (Ret true, w1) ->
  upstream w1 = Reply r :: rest ->
  reports "active" r ->
  ensure_application_running B w1
  = (Ret true,
     {| application_status := Some "active";
        upstream := rest;
        trace := trace w1 ++ [Exchange (status_request B) (Reply r)] |}).
Proof.
  intros HA Hup Hr.
  apply ensure_application_running_run in HA
    as (pre & rps & _ & _ & _ & _ & _ & _ & Htrue & _).
  destruct (Htrue eq_refl) as [Hflag _].
  rewrite (ensure_confirmed B w1 r rest); [|rewrite Hflag; reflexivity|assumption..].
  unfold exchanged, record, advance. simpl. rewrite Hflag, Hup. reflexivity.
Qed.

(** With the flag set, a confirmation whose reply gives no status to read
    ends the call by the exception of lines 79-80, before line 82. *)
Lemma ensure_unreadable key w rp rest :
  is_active (application_status w) = true ->
  upstream w = rp :: rest ->
  unreadable rp = true ->
  exists e,
    ensure_application_running key w
    = (Raise e, exchanged (status_request key) rp w).
Proof.
  intros Hflag Hup Hrp. rewrite ensure_application_running_unfold.
  unfold read_application_status, requests_get, send, response_json.
  unfold_monad. rewrite Hflag, Hup. fold (status_request key).
  unfold exchanged, record, advance. rewrite Hup. simpl.
  destruct rp as [r|]; [|eauto]. simpl in Hrp.
  destruct (body_json r) as [[| | | | | |d]|]; try discriminate; simpl; eauto.
Qed.

(** C4, as the code has it.  The readiness flag stays within [None] and
    ["active"] through every call of ensure_application_running and every
    route; a call that returns [True] leaves the flag set and ends on the
    upstream response that reported "active", and the flag is set from
    unknown by no other run; a confirmation GET that reads a status other
    than "active" from its reply clears the flag before anything else
    happens, so the flag is set afterwards only by a later response
    reporting "active"; a confirmation GET whose reply gives no status to
    read (no response, a body that is not JSON, JSON that is not an object)
    raises instead, and the flag stays set. *)
Theorem readiness_flag_sound `{Repr} `{IntOfStr}
    (key : string) (w : world) (o : outcome bool) (w' : world) :
  ensure_application_running key w = (o, w') ->
  (flag_ok w -> flag_ok w') /\
  (o = Ret true ->
     application_status w' = Some "active" /\
     exists evs rq r, trace w' = trace w ++ evs ++ [Exchange rq (Reply r)] /\
                      reports "active" r) /\
  (application_status w' = Some "active" ->
     application_status w <> Some "active" -> o = Ret true) /\
  (forall r d rest,
     application_status w = Some "active" ->
     upstream w = Reply r :: rest ->
     body_json r = Some (JObj d) ->
     status_of d <> JStr "active" ->
     let w1 := reset (exchanged (status_request key) (Reply r) w) in
     application_status w1 = None /\
     ensure_application_running key w = ensure_application_running key w1 /\
     (application_status w' = Some "active" ->
        exists evs rq r', trace w' = trace w1 ++ evs ++ [Exchange rq (Reply r')] /\
                          reports "active" r')) /\
  (forall req slug w0,
     flag_ok w0 ->
     flag_ok (post_api_queries req w0).2 /\
     flag_ok (get_api_queries_results slug req w0).2 /\
     flag_ok (health_check req w0).2) /\
  (forall rp rest,
     is_active (application_status w) = true ->
     upstream w = rp :: rest ->
     unreadable rp = true ->
     (exists e, o = Raise e) /\
     application_status w' = application_status w /\
     trace w' = trace w ++ [Exchange (status_request key) rp]).
Proof.
  intros Hrun. split_and!.
  - intros Hw. pose proof (keeps_flag_ensure key w Hw) as Hk.
    rewrite Hrun in Hk. exact Hk.
  - apply ensure_application_running_run in Hrun
      as (pre & rps & _ & _ & _ & _ & _ & _ & Htrue & _). exact Htrue.
  - apply ensure_application_running_run in Hrun
      as (pre & rps & _ & _ & _ & _ & _ & _ & _ & _ & Hf).
    intros Hset Hunset. destruct Hf as [Hf|[Hf|[_ Ho]]]; [congruence..|exact Ho].
  - intros r d rest Hflag Hup Hb Hs w1. split; [reflexivity|].
    assert (Hstep : ensure_application_running key w
                    = ensure_application_running key w1).
    { apply (ensure_disagrees key w r d rest); [rewrite Hflag; reflexivity|done..|].
      destruct (eq_str (status_of d) "active") eqn:E; [|reflexivity].
      apply eq_str_true in E. contradiction. }
    split; [exact Hstep|]. intros Hset. rewrite Hstep in Hrun.
    apply ensure_application_running_run in Hrun
      as (pre & rps & _ & _ & _ & _ & _ & _ & Htrue & _ & Hf).
    apply Htrue. destruct Hf as [Hf|[Hf|[_ Ho]]]; [|congruence|exact Ho].
    rewrite Hset in Hf. discriminate.
  - intros req slug w0 Hw0. split_and!.
    + apply keeps_flag_post_api_queries. assumption.
    + apply keeps_flag_get_api_queries_results. assumption.
    + exact Hw0.
  - intros rp rest Hflag Hup Hrp.
    destruct (ensure_unreadable key w rp rest Hflag Hup Hrp) as [e He].
    rewrite He in Hrun. injection Hrun as <- <-. split_and!; [eauto|reflexivity..].
Qed.

Lemma readiness_flag_sound_witness :
  let w := ready [status_reply 200 "stopped"; status_reply 200 "active"] in
  let w' := {| application_status := Some "active";
               upstream := [];
               trace := [Exchange (status_request "k") (status_reply 200 "stopped");
                         Exchange (start_request "k") (status_reply 200 "active")] |} in
  ensure_application_running "k" w = (Ret true, w') /\
  flag_ok w' /\
  ensure_application_running "k" w
  = ensure_application_running "k"
      (reset (exchanged (status_request "k") (status_reply 200 "stopped") w)).
Proof.
  intros w w'.
  assert (Hrun : ensure_application_running "k" w = (Ret true, w')).
  { vm_compute. reflexivity. }
  split; [exact Hrun|].
  destruct (readiness_flag_sound "k" w (Ret true) w' Hrun)
    as (Hinv & _ & _ & Hreset & _).
  split.
  - apply Hinv. right. reflexivity.
  - eapply Hreset.
    + reflexivity.
    + reflexivity.
    + reflexivity.
    + vm_compute. discriminate.
Defined.

(** C4, as the specification words it, fails: with the flag set, a
    confirmation GET answered by a 502 with an HTML page fails, and the flag
    is still set when the call has ended. *)
Lemma readiness_flag_sound_counterexample :
  let run := ensure_application_running "k" (ready [Reply bad_gateway]) in
  not_ok bad_gateway = true /\
  ~ reports "active" bad_gateway /\
  run.1 = Raise JSONDecodeError /\
  application_status run.2 = Some "active".
Proof.
  intros run. split_and!.
  - reflexivity.
  - intros (d & Hb & _). discriminate.
  - vm_compute. reflexivity.
  - vm_compute. reflexivity.
Qed.

Lemma flag_shared_across_credentials_witness :
  let w := idle [status_reply 200 "active"; status_reply 200 "active"] in
  let w1 := {| application_status := Some "active";
               upstream := [status_reply 200 "active"];
               trace := [Exchange (start_request "tenant-a")
                           (status_reply 200 "active")] |} in
  ensure_application_running "tenant-a" w = (Ret true, w1) /\
  ensure_application_running "tenant-b" w1
  = (Ret true,
     {| application_status := Some "active";
        upstream := [];
        trace := [Exchange (start_request "tenant-a") (status_reply 200 "active");
                  Exchange (status_request "tenant-b") (status_reply 200 "active")] |}).
Proof.
  intros w w1.
  assert (HA : ensure_application_running "tenant-a" w = (Ret true, w1)).
  { vm_compute. reflexivity. }
  split; [exact HA|].
  apply (flag_shared_across_credentials "tenant-a" "tenant-b" w w1
           {| status_code := 200;
              text := "{" +:+ quoted "status" +:+ ": " +:+ quoted "active" +:+ "}";
              body_json := Some (JObj {[ "status" := JStr "active" ]});
              body_parquet := None |} []).
  - exact HA.
  - reflexivity.
  - exists {[ "status" := JStr "active" ]}. split; reflexivity.
Defined.

(** ** execute_query *)

Lemma wait_for_execution_unfold slug id key n execution :
  wait_for_execution slug id key n execution =
  (status ← lift (get execution "status");
   if terminal status then mret (inr execution) else
   match n with
   | O => mret (inr execution)
   | S remaining' =>
       _ ← sleep 2;
       response ← requests_get (ExecutionStatus slug id) (Some key);
       if not_ok response then mret (inl (status_error_message response)) else
       execution ← lift (response_json response);
       wait_for_execution slug id key remaining' execution
   end).
Proof. destruct n; reflexivity. Qed.

Lemma execute_query_unfold slug page key :
  execute_query slug page key =
  (response ← requests_post (Execution slug) (Some key)
                (Some (JObj {[ "page_number" := JInt page ]}));
   if not_ok response then mret (None, trigger_error_message response) else
   execution ← lift (response_json response);
   execution_id ← lift (get execution "id");
   response ← requests_get (ExecutionStatus slug execution_id) (Some key);
   execution ← lift (response_json response);
   waited ← wait_for_execution slug execution_id key 150 execution;
   after_polling slug execution_id key waited).
Proof. reflexivity. Qed.

Lemma world_eta w :
  {| application_status := application_status w; upstream := upstream w;
     trace := trace w |} = w.
Proof. destruct w; reflexivity. Qed.

Lemma object_status_some r st :
  object_status r = Some st ->
  exists d, body_json r = Some (JObj d) /\ st = status_of d.
Proof.
  unfold object_status. destruct (body_json r) as [[]|]; try discriminate.
  intros [= <-]. eauto.
Qed.

Lemma polled_unfold q r polls :
  polled q r polls =
  match object_status r with
  | None => false
  | Some status =>
      match polls with
      | [] => q status
      | p :: polls' => negb (terminal status) && negb (not_ok p) && polled q p polls'
      end
  end.
Proof. destruct polls; reflexivity. Qed.

(** The loop follows the responses of a [polled] run one by one and arrives
    at the last of them with the budget they left. *)
Lemma wait_for_execution_polled slug id key q polls :
  forall r n w rest,
    polled q r polls = true ->
    (length polls <= n)%nat ->
    upstream w = map Reply polls ++ rest ->
    exists d,
      body_json (default r (last polls)) = Some (JObj d) /\
      q (status_of d) = true /\
      forall e, body_json r = Some e ->
        wait_for_execution slug id key n e w
        = wait_for_execution slug id key (n - length polls) (JObj d)
            {| application_status := application_status w;
               upstream := rest;
               trace := trace w ++ execution_polls slug id key polls |}.
Proof.
  induction polls as [|p polls IH]; intros r n w rest Hpolled Hlen Hup;
    rewrite polled_unfold in Hpolled;
    destruct (object_status r) as [st|] eqn:Hst; try discriminate;
    apply object_status_some in Hst as (d & Hb & ->); simpl in *.
  - exists d. split_and!; try assumption. intros e He.
    rewrite Hb in He. injection He as <-.
    rewrite Nat.sub_0_r, app_nil_r, <- Hup, world_eta. reflexivity.
  - apply andb_prop in Hpolled as [Hpolled Hrest].
    apply andb_prop in Hpolled as [Hpend Hok].
    apply negb_true_iff in Hpend, Hok.
    destruct n as [|n]; [lia|].
    destruct (IH p n (exchanged (execution_request slug id key) (Reply p)
                        (record (Sleep 2) w)) rest) as (d' & Hb' & HQ' & Hrun).
    { assumption. }
    { lia. }
    { unfold exchanged. simpl. rewrite Hup. reflexivity. }
    exists d'. split_and!.
    + destruct polls as [|p' polls]; [exact Hb'|].
      change (last (p :: p' :: polls)) with (last (p' :: polls)).
      destruct (last (p' :: polls)) eqn:Hl; [exact Hb'|].
      apply last_None in Hl. discriminate.
    + assumption.
    + intros e He. rewrite Hb in He. injection He as <-.
      rewrite wait_for_execution_unfold.
      unfold sleep, requests_get, send, response_json. unfold_monad. simpl.
      fold (status_of d). rewrite Hpend, Hup. simpl. rewrite Hok.
      destruct (body_json p) as [e'|] eqn:Hp.
      2:{ rewrite polled_unfold in Hrest. unfold object_status in Hrest.
          rewrite Hp in Hrest. discriminate. }
      fold (execution_request slug id key).
      fold (exchanged (execution_request slug id key) (Reply p) (record (Sleep 2) w)).
      rewrite (Hrun e' eq_refl). unfold exchanged. simpl.
      rewrite <- !app_assoc. reflexivity.
Qed.

(** The same for execute_query as a whole: after its POST, its first status
    GET and the polls of a [polled] run, it is at the last response with the
    budget the polls left. *)
Lemma execute_query_polled slug page key q w rp dp r0 polls rest :
  upstream w = Reply rp :: Reply r0 :: map Reply polls ++ rest ->
  not_ok rp = false ->
  body_json rp = Some (JObj dp) ->
  polled q r0 polls = true ->
  (length polls <= 150)%nat ->
  exists d,
    body_json (default r0 (last polls)) = Some (JObj d) /\
    q (status_of d) = true /\
    execute_query slug page key w
    = (waited ← wait_for_execution slug (default JNull (dp !! "id")) key
                  (150 - length polls) (JObj d);
       after_polling slug (default JNull (dp !! "id")) key waited)
        (polled_world slug page key (default JNull (dp !! "id")) rp r0 polls rest w).
Proof.
  intros Hup Hok Hb Hpolled Hlen. set (id := default JNull (dp !! "id")).
  destruct (wait_for_execution_polled slug id key q polls r0 150%nat
              (exchanged (execution_request slug id key) (Reply r0)
                 (exchanged (trigger_request slug page key) (Reply rp) w)) rest)
    as (d & Hd & Hq & Hrun).
  { assumption. }
  { assumption. }
  { unfold exchanged. simpl. rewrite Hup. reflexivity. }
  exists d. split_and!; try assumption.
  rewrite execute_query_unfold.
  unfold requests_post, requests_get, send, response_json. unfold_monad.
  rewrite Hup. simpl. rewrite Hok, Hb. simpl. rewrite Hup. simpl. fold id.
  rewrite polled_unfold in Hpolled.
  destruct (object_status r0) as [st|] eqn:Hst; [|discriminate].
  apply object_status_some in Hst as (d0 & Hb0 & ->). rewrite Hb0.
  fold (trigger_request slug page key). fold (execution_request slug id key).
  fold (exchanged (trigger_request slug page key) (Reply rp) w).
  fold (exchanged (execution_request slug id key) (Reply r0)
          (exchanged (trigger_request slug page key) (Reply rp) w)).
  rewrite (Hrun (JObj d0) Hb0). unfold polled_world, exchanged. simpl.
  rewrite <- !app_assoc. reflexivity.
Qed.

Lemma pending_not_terminal d :
  pending (status_of d) = true ->
  terminal (status_of d) = false /\
  eq_str (status_of d) "failed" = false /\
  eq_str (status_of d) "complete" = false.
Proof.
  unfold pending, terminal. intros Hp. apply negb_true_iff in Hp.
  apply orb_false_elim in Hp as [Hc Hf]. rewrite Hc, Hf. auto.
Qed.

(** C3.  When the POST succeeds and the first status GET and the
    floor(300/2) = 150 polls that follow it, each after a sleep of two
    seconds and each answered 200 or 201, never show "complete" or "failed",
    execute_query returns no table and the message
    "Query execution timed out after 300s". *)
Theorem execution_times_out
    (slug : string) (page : Z) (key : string) (w : world)
    (rp : response) (dp : gmap string json) (r0 : response)
    (polls : list response) (rest : list reply) :
  upstream w = Reply rp :: Reply r0 :: map Reply polls ++ rest ->
  not_ok rp = false ->
  body_json rp = Some (JObj dp) ->
  polled pending r0 polls = true ->
  Z.of_nat (length polls) = QUERY_EXECUTION_TIMEOUT / 2 ->
  execute_query slug page key w
  = (Ret (None, JStr "Query execution timed out after 300s"),
     polled_world slug page key (default JNull (dp !! "id")) rp r0 polls rest w).
Proof.
  intros Hup Hok Hb Hpolled Hlen.
  change (QUERY_EXECUTION_TIMEOUT / 2) with 150 in Hlen.
  destruct (execute_query_polled slug page key pending w rp dp r0 polls rest)
    as (d & _ & Hq & ->); try assumption; [lia|].
  apply pending_not_terminal in Hq as (Hterm & Hfailed & Hcomplete).
  replace (150 - length polls)%nat with 0%nat by lia.
  rewrite wait_for_execution_unfold. unfold after_polling. unfold_monad. simpl.
  fold (status_of d). rewrite Hterm. simpl.
  fold (status_of d). rewrite Hfailed, Hcomplete. reflexivity.
Qed.

Lemma execution_times_out_witness :
  let running := status_response 200 "running" in
  let w := idle (Reply triggered :: repeat (Reply running) 151) in
  execute_query "q" 1 "k" w
  = (Ret (None, JStr "Query execution timed out after 300s"),
     polled_world "q" 1 "k" (JInt 7) triggered running (repeat running 150) [] w).
Proof.
  intros running w.
  assert (Hid : default JNull (({[ "id" := JInt 7 ]} : gmap string json) !! "id")
                = JInt 7) by reflexivity.
  rewrite <- Hid.
  apply (execution_times_out "q" 1 "k" w triggered {[ "id" := JInt 7 ]}
           running (repeat running 150) []).
  - vm_compute. reflexivity.
  - reflexivity.
  - reflexivity.
  - vm_compute. reflexivity.
  - vm_compute. reflexivity.
Defined.

(** ** The three branches shared by the extraction blocks *)

(** Lines 194-199 and 236-241 on an object. *)
Lemma extraction_on_object d generic :
  plain_errors d = true ->
  (error_obj ← Ret (JObj d);
   in_errors ← errors_detail_present error_obj;
   if (in_errors : bool) then errors_detail error_obj else
   has_detail ← contains "detail" error_obj;
   if (has_detail : bool) then getitem error_obj "detail" else
   has_message ← contains "message" error_obj;
   if (has_message : bool) then getitem error_obj "message" else
   Ret generic)
  = Ret (match first_error_detail d with Some v => v | None =>
         match d !! "detail" with Some v => v | None =>
         match d !! "message" with Some v => v | None =>
         generic
         end end end).
Proof.
  unfold plain_errors, first_error_detail, errors_detail_present, errors_detail.
  intros Hplain. unfold_monad. simpl.
  assert (Htail :
    (match contains "detail" (JObj d) with
     | Ret has_detail =>
         if has_detail then getitem (JObj d) "detail" else
         match contains "message" (JObj d) with
         | Ret has_message =>
             if has_message then getitem (JObj d) "message" else Ret generic
         | Raise e => Raise e
         end
     | Raise e => Raise e
     end)
    = Ret (match d !! "detail" with Some v => v | None =>
           match d !! "message" with Some v => v | None => generic end end)).
  { simpl. destruct (d !! "detail"); simpl; [reflexivity|].
    destruct (d !! "message"); reflexivity. }
  destruct (d !! "errors") as [[| | | | |[|[| | | | | |entry] l]|]|];
    simpl in *; try discriminate; try exact Htail.
  replace (0 <? Z.pos (Pos.of_succ_nat (length l))) with true
    by (symmetry; apply Z.ltb_lt; lia).
  destruct (entry !! "detail"); simpl; [reflexivity|exact Htail].
Qed.

Lemma status_error_message_extracted r :
  in_scope r = true ->
  status_error_message r = extracted (status_generic r) r.
Proof.
  unfold in_scope, status_error_message, extracted, or_text, response_json.
  intros Hscope. destruct (body_json r) as [[| | | | | |d]|]; try discriminate.
  - apply andb_prop in Hscope as [Hplain _].
    rewrite (extraction_on_object d _ Hplain). reflexivity.
  - reflexivity.
Qed.

Lemma results_error_message_extracted r :
  in_scope r = true ->
  results_error_message r = extracted (results_generic r) r.
Proof.
  unfold in_scope, results_error_message, extracted, or_text, response_json.
  intros Hscope. destruct (body_json r) as [[| | | | | |d]|]; try discriminate.
  - apply andb_prop in Hscope as [Hplain _].
    rewrite (extraction_on_object d _ Hplain). reflexivity.
  - reflexivity.
Qed.

Lemma complete_terminal d :
  complete (status_of d) = true ->
  terminal (status_of d) = true /\
  eq_str (status_of d) "failed" = false /\
  eq_str (status_of d) "complete" = true.
Proof.
  unfold complete, terminal. intros Hc. rewrite Hc. split_and!; try reflexivity.
  apply eq_str_true in Hc. rewrite Hc. reflexivity.
Qed.

(** A poll answered with a status code outside 200 and 201 ends the loop
    with the extracted message (lines 190-205). *)
Lemma wait_for_execution_refused slug id key n d w bad rest :
  pending (status_of d) = true ->
  upstream w = Reply bad :: rest ->
  not_ok bad = true ->
  wait_for_execution slug id key (S n) (JObj d) w
  = (Ret (inl (status_error_message bad)),
     exchanged (execution_request slug id key) (Reply bad) (record (Sleep 2) w)).
Proof.
  intros Hp Hup Hbad. apply pending_not_terminal in Hp as (Hterm & _ & _).
  rewrite wait_for_execution_unfold.
  unfold sleep, requests_get, send. unfold_monad. simpl.
  fold (status_of d). rewrite Hterm, Hup. simpl. rewrite Hbad. reflexivity.
Qed.

(** On "complete" the loop ends at once and the results descriptor is
    fetched (lines 224-229). *)
Lemma after_complete slug id key n d w :
  complete (status_of d) = true ->
  (waited ← wait_for_execution slug id key n (JObj d);
   after_polling slug id key waited) w
  = (response ← requests_get (ExecutionResults slug id) (Some key);
     if not_ok response then mret (None, results_error_message response) else
     results ← lift (response_json response);
     presigned_url ← lift (get results "presigned_url");
     df ← process_parquet_in_memory presigned_url;
     match df with
     | None => mret (None, JStr "Failed to process parquet file")
     | Some df => mret (Some df, JNull)
     end) w.
Proof.
  intros Hc. apply complete_terminal in Hc as (Hterm & Hfailed & Hcomplete).
  rewrite wait_for_execution_unfold. unfold after_polling. unfold_monad. simpl.
  fold (status_of d). rewrite Hterm. simpl.
  fold (status_of d). rewrite Hfailed, Hcomplete. reflexivity.
Qed.

(** C1, as the code has it.  A response with a status code outside 200 and
    201 to a poll of the loop or to the GET of the results descriptor makes
    execute_query return no table and the message [extracted] describes:
    for a JSON object the first present of [errors[0].detail], [detail] and
    [message], else the generic message with the status code; for a body
    that is not JSON its text, else the generic message.  Objects that offer
    a top-level [error] only are left aside. *)
Theorem error_precedence
    (slug : string) (page : Z) (key : string) (w : world)
    (rp : response) (dp : gmap string json) (r0 : response)
    (polls : list response) (bad : response) (rest : list reply) :
  upstream w = Reply rp :: Reply r0 :: map Reply polls ++ Reply bad :: rest ->
  not_ok rp = false ->
  body_json rp = Some (JObj dp) ->
  not_ok bad = true ->
  in_scope bad = true ->
  let id := default JNull (dp !! "id") in
  let w1 := polled_world slug page key id rp r0 polls (Reply bad :: rest) w in
  (polled pending r0 polls = true -> (length polls < 150)%nat ->
   execute_query slug page key w
   = (Ret (None, extracted (status_generic bad) bad),
      exchanged (execution_request slug id key) (Reply bad) (record (Sleep 2) w1))) /\
  (polled complete r0 polls = true -> (length polls <= 150)%nat ->
   execute_query slug page key w
   = (Ret (None, extracted (results_generic bad) bad),
      exchanged (results_request slug id key) (Reply bad) w1)).
Proof.
  intros Hup Hok Hb Hbad Hscope id w1. split; intros Hpolled Hlen.
  - destruct (execute_query_polled slug page key pending w rp dp r0 polls
                (Reply bad :: rest)) as (d & _ & Hq & ->); try assumption; [lia|].
    fold id. fold w1.
    replace (150 - length polls)%nat with (S (149 - length polls)) by lia.
    unfold mbind at 1, M_bind.
    rewrite (wait_for_execution_refused slug id key _ d w1 bad rest);
      [|assumption|reflexivity|assumption].
    rewrite status_error_message_extracted by assumption. reflexivity.
  - destruct (execute_query_polled slug page key complete w rp dp r0 polls
                (Reply bad :: rest)) as (d & _ & Hq & ->); try assumption.
    fold id. fold w1. rewrite after_complete by assumption.
    unfold requests_get, send. unfold_monad. simpl. rewrite Hbad.
    rewrite results_error_message_extracted by assumption. reflexivity.
Qed.

Lemma error_precedence_witness :
  (execute_query "q" 1 "k"
     (idle [Reply triggered; status_reply 200 "running"; Reply not_found])).1
  = Ret (None, JStr "Not found") /\
  (execute_query "q" 1 "k"
     (idle [Reply triggered; status_reply 200 "complete"; Reply not_found])).1
  = Ret (None, JStr "Not found").
Proof.
  split.
  - rewrite (proj1 (error_precedence "q" 1 "k"
               (idle [Reply triggered; status_reply 200 "running"; Reply not_found])
               triggered {[ "id" := JInt 7 ]} (status_response 200 "running") []
               not_found []
               eq_refl eq_refl eq_refl eq_refl eq_refl) eq_refl).
    + reflexivity.
    + simpl. lia.
  - rewrite (proj2 (error_precedence "q" 1 "k"
               (idle [Reply triggered; status_reply 200 "complete"; Reply not_found])
               triggered {[ "id" := JInt 7 ]} (status_response 200 "complete") []
               not_found []
               eq_refl eq_refl eq_refl eq_refl eq_refl) eq_refl).
    + reflexivity.
    + simpl. lia.
Defined.

(** C1, as the specification words it, fails: a refused poll whose body is a
    JSON object with none of the documented fields gives the generic
    message, although the body text is there and comes first in the
    documented order. *)
Lemma error_precedence_counterexample :
  let w := idle [Reply triggered; status_reply 200 "running"; Reply unexplained] in
  not_ok unexplained = true /\
  (execute_query "q" 1 "k" w).1
  = Ret (None, JStr "Failed to check execution status: 500") /\
  documented_message (status_generic unexplained) unexplained
  = JStr (text unexplained) /\
  (execute_query "q" 1 "k" w).1
  <> Ret (None, documented_message (status_generic unexplained) unexplained).
Proof.
  intros w. split_and!.
  - reflexivity.
  - vm_compute. reflexivity.
  - vm_compute. reflexivity.
  - vm_compute. discriminate.
Qed.

(** The same loop does not consult a top-level [error] either, which the
    block after the triggering POST (lines 158-159) does. *)
Example polling_skips_top_level_error :
  (execute_query "q" 1 "k"
     (idle [Reply triggered; status_reply 200 "running"; Reply boom])).1
  = Ret (None, JStr "Failed to check execution status: 500") /\
  trigger_error_message boom = JStr "boom".
Proof. split; vm_compute; reflexivity. Qed.

(** ** The result file *)

(** Lines 45-57: no table exactly for a download answered with a status
    code other than 200. *)
Lemma process_parquet_in_memory_none u w w' :
  process_parquet_in_memory u w = (Ret None, w') <->
  exists url rf rest,
    u = JStr url /\ upstream w = Reply rf :: rest /\ status_code rf <> 200 /\
    w' = exchanged (download_request url) (Reply rf) w.
Proof.
  unfold process_parquet_in_memory, requests_get, send. unfold_monad.
  split.
  - destruct u as [| | | |url| |]; try discriminate.
    fold (download_request url).
    destruct (upstream w) as [|[rf|] rest]; simpl; try discriminate.
    destruct (status_code rf =? 200) eqn:Hcode.
    + destruct (body_parquet rf); discriminate.
    + intros [= <-]. exists url, rf, rest. split_and!; try reflexivity.
      apply Z.eqb_neq. assumption.
  - intros (url & rf & rest & -> & Hup & Hcode & ->). rewrite Hup. simpl.
    apply Z.eqb_neq in Hcode. rewrite Hcode. reflexivity.
Qed.

Lemma process_parquet_in_memory_table url w rf rest df :
  upstream w = Reply rf :: rest ->
  status_code rf = 200 ->
  body_parquet rf = Some df ->
  process_parquet_in_memory (JStr url) w
  = (Ret (Some df), exchanged (download_request url) (Reply rf) w).
Proof.
  intros Hup Hcode Hdf.
  unfold process_parquet_in_memory, requests_get, send. unfold_monad.
  rewrite Hup. simpl. rewrite Hcode, Hdf. reflexivity.
Qed.

(** Lines 249-260 once the descriptor is there. *)
Lemma execute_query_descriptor slug page key w rp dp r0 polls rd dd rest :
  upstream w = Reply rp :: Reply r0 :: map Reply polls ++ Reply rd :: rest ->
  not_ok rp = false ->
  body_json rp = Some (JObj dp) ->
  polled complete r0 polls = true ->
  (length polls <= 150)%nat ->
  not_ok rd = false ->
  body_json rd = Some (JObj dd) ->
  execute_query slug page key w
  = (df ← process_parquet_in_memory (default JNull (dd !! "presigned_url"));
     match df with
     | None => mret (None, JStr "Failed to process parquet file")
     | Some df => mret (Some df, JNull)
     end)
      (exchanged (results_request slug (default JNull (dp !! "id")) key) (Reply rd)
         (polled_world slug page key (default JNull (dp !! "id")) rp r0 polls
            (Reply rd :: rest) w)).
Proof.
  intros Hup Hok Hb Hpolled Hlen Hokd Hbd.
  destruct (execute_query_polled slug page key complete w rp dp r0 polls
              (Reply rd :: rest)) as (d & _ & Hq & ->); try assumption.
  rewrite after_complete by assumption.
  unfold requests_get, send, response_json. unfold_monad. simpl.
  rewrite Hokd, Hbd. reflexivity.
Qed.

(** What the results route makes of a table (lines 452-461). *)
Lemma execute_query_endpoint_table `{IntOfStr} slug key req page w0 w df w' :
  requested_page req = Some page ->
  1 <= page ->
  ensure_application_running key w0 = (Ret true, w) ->
  execute_query slug page key w = (Ret (Some df, JNull), w') ->
  execute_query_endpoint slug key req w0
  = (Ret {| http_status := 200;
            http_body := JObj {[ "query_slug" := JStr slug;
                                 "page" := JInt page;
                                 "data" := to_records df ]} |}, w').
Proof.
  intros Hpage Hpos Hready Hrun. unfold execute_query_endpoint. rewrite Hpage.
  replace (page <? 1) with false by (symmetry; apply Z.ltb_ge; lia).
  unfold_monad. rewrite Hready. simpl. rewrite Hrun. reflexivity.
Qed.

(** C2, as the code has it.  Once the results descriptor is fetched,
    execute_query returns the error "Failed to process parquet file" exactly
    when process_parquet_in_memory yields no table, which is exactly when
    the download is answered with a status code other than 200; a
    downloaded table is returned as a success whatever its number of rows,
    and the results route renders a table without rows as [data: []]; a
    download answered 200 whose bytes the decoder refuses gives neither: the
    exception of the decoder leaves execute_query. *)
Theorem empty_table_is_success `{IntOfStr}
    (slug : string) (page : Z) (key : string) (w : world)
    (rp : response) (dp : gmap string json) (r0 : response)
    (polls : list response) (rd : response) (dd : gmap string json)
    (rest : list reply) :
  upstream w = Reply rp :: Reply r0 :: map Reply polls ++ Reply rd :: rest ->
  not_ok rp = false ->
  body_json rp = Some (JObj dp) ->
  polled complete r0 polls = true ->
  (length polls <= 150)%nat ->
  not_ok rd = false ->
  body_json rd = Some (JObj dd) ->
  let id := default JNull (dp !! "id") in
  let u := default JNull (dd !! "presigned_url") in
  let w2 := exchanged (results_request slug id key) (Reply rd)
              (polled_world slug page key id rp r0 polls (Reply rd :: rest) w) in
  (forall w',
     execute_query slug page key w
     = (Ret (None, JStr "Failed to process parquet file"), w') <->
     process_parquet_in_memory u w2 = (Ret None, w')) /\
  (forall w',
     process_parquet_in_memory u w2 = (Ret None, w') <->
     exists url rf rest',
       u = JStr url /\ rest = Reply rf :: rest' /\ status_code rf <> 200 /\
       w' = exchanged (download_request url) (Reply rf) w2) /\
  (forall url rf rest' df,
     u = JStr url -> rest = Reply rf :: rest' ->
     status_code rf = 200 -> body_parquet rf = Some df ->
     execute_query slug page key w
     = (Ret (Some df, JNull), exchanged (download_request url) (Reply rf) w2)) /\
  (forall df w' w0 req,
     execute_query slug page key w = (Ret (Some df, JNull), w') ->
     rows df = [] ->
     requested_page req = Some page -> 1 <= page ->
     ensure_application_running key w0 = (Ret true, w) ->
     execute_query_endpoint slug key req w0
     = (Ret {| http_status := 200;
               http_body := JObj {[ "query_slug" := JStr slug;
                                    "page" := JInt page;
                                    "data" := JArr [] ]} |}, w')) /\
  (forall url rf rest',
     u = JStr url -> rest = Reply rf :: rest' ->
     status_code rf = 200 -> body_parquet rf = None ->
     execute_query slug page key w
     = (Raise ArrowInvalid, exchanged (download_request url) (Reply rf) w2)).
Proof.
  intros Hup Hok Hb Hpolled Hlen Hokd Hbd id u w2.
  pose proof (execute_query_descriptor slug page key w rp dp r0 polls rd dd rest
                Hup Hok Hb Hpolled Hlen Hokd Hbd) as Hrun.
  fold id u w2 in Hrun. split_and!.
  - intros w'. rewrite Hrun. unfold_monad.
    destruct (process_parquet_in_memory u w2) as [[[df|]|e] w''];
      split; intros Heq; try discriminate; congruence.
  - intros w'. rewrite process_parquet_in_memory_none. reflexivity.
  - intros url rf rest' df Hu Hrest Hcode Hdf. rewrite Hrun, Hu. unfold_monad.
    rewrite (process_parquet_in_memory_table url w2 rf rest' df);
      [reflexivity|rewrite <- Hrest; reflexivity|assumption..].
  - intros df w' w0 req Hdf Hrows Hpage Hpos Hready.
    rewrite (execute_query_endpoint_table slug key req page w0 w df w')
      by assumption.
    unfold to_records. rewrite Hrows. reflexivity.
  - intros url rf rest' Hu Hrest Hcode Hdf. rewrite Hrun, Hu.
    unfold process_parquet_in_memory, requests_get, send. unfold_monad.
    replace (upstream w2) with rest by reflexivity.
    rewrite Hrest. simpl. rewrite Hcode, Hdf. reflexivity.
Qed.

(** The sample table is empty in the sense of [df.empty] and renders as the
    empty list. *)
Example no_rows_is_empty : df_empty no_rows = true /\ to_records no_rows = JArr [].
Proof. split; reflexivity. Qed.

Lemma empty_table_is_success_witness :
  let replies := [Reply triggered; status_reply 200 "complete"; Reply descriptor] in
  (get_api_queries_results "q" first_page_request
     (idle (status_reply 200 "active" :: replies ++ [Reply downloaded]))).1
  = Ret {| http_status := 200;
           http_body := JObj {[ "query_slug" := JStr "q"; "page" := JInt 1;
                                "data" := JArr [] ]} |} /\
  (execute_query "q" 1 "k" (started_by_k (replies ++ [Reply forbidden]))).1
  = Ret (None, JStr "Failed to process parquet file").
Proof.
  intros replies. split.
  - destruct (empty_table_is_success "q" 1 "k"
                (started_by_k (replies ++ [Reply downloaded]))
                triggered {[ "id" := JInt 7 ]} (status_response 200 "complete") []
                descriptor
                {[ "presigned_url" := JStr "https://files.example/page.parquet" ]}
                [Reply downloaded]
                eq_refl eq_refl eq_refl eq_refl (le_0_n 150) eq_refl eq_refl)
      as (_ & _ & Htable & Hroute & _).
    specialize (Htable "https://files.example/page.parquet" downloaded [] no_rows
                  eq_refl eq_refl eq_refl eq_refl).
    change (get_api_queries_results "q" first_page_request)
      with (execute_query_endpoint "q" "k" first_page_request).
    rewrite (Hroute no_rows _
               (idle (status_reply 200 "active" :: replies ++ [Reply downloaded]))
               first_page_request Htable eq_refl eq_refl).
    + reflexivity.
    + lia.
    + vm_compute. reflexivity.
  - destruct (empty_table_is_success "q" 1 "k"
                (started_by_k (replies ++ [Reply forbidden]))
                triggered {[ "id" := JInt 7 ]} (status_response 200 "complete") []
                descriptor
                {[ "presigned_url" := JStr "https://files.example/page.parquet" ]}
                [Reply forbidden]
                eq_refl eq_refl eq_refl eq_refl (le_0_n 150) eq_refl eq_refl)
      as (Herror & Hnone & _ & _).
    erewrite (proj2 (Herror _)); [reflexivity|].
    apply Hnone. exists "https://files.example/page.parquet", forbidden, [].
    split_and!; [reflexivity|reflexivity|discriminate|reflexivity].
Defined.

(** C2, as the specification words it, fails: a download answered 200 whose
    bytes are not a parquet file yields no table, and execute_query does
    not return the error "Failed to process parquet file": it raises. *)
Lemma empty_table_is_success_counterexample :
  let run := execute_query "q" 1 "k"
               (idle (up_to_descriptor descriptor ++ [Reply corrupt])) in
  status_code corrupt = 200 /\
  body_parquet corrupt = None /\
  run.1 = Raise ArrowInvalid /\
  run.1 <> Ret (None, JStr "Failed to process parquet file").
Proof.
  intros run. split_and!.
  - reflexivity.
  - reflexivity.
  - vm_compute. reflexivity.
  - vm_compute. discriminate.
Qed.

(** ** build_sql_query *)

Lemma append_assoc (a b c : string) : (a +:+ b) +:+ c = a +:+ b +:+ c.
Proof.
  induction a as [|x a IH]; [reflexivity|].
  change (String x ((a +:+ b) +:+ c) = String x (a +:+ b +:+ c)).
  rewrite IH. reflexivity.
Qed.

(** C7.  For strings [L] and [T], build_sql_query without a limit is
    [SELECT\n\t*\nFROM\n\t"L"."T"], the two names between double quotes as
    they are, and with the limit [n] it is that text followed by
    [\nLIMIT n]; ("raw", "orders") gives the documented text, and limit 10
    adds [\nLIMIT 10]. *)
Theorem build_sql_query_text `{Repr} (L T : string) :
  build_sql_query (JStr L) (JStr T) JNull
  = select_star_from +:+ dquote +:+ L +:+ dquote +:+ "." +:+ dquote +:+ T +:+ dquote /\
  (forall n : Z,
     build_sql_query (JStr L) (JStr T) (JInt n)
     = build_sql_query (JStr L) (JStr T) JNull +:+ nl +:+ "LIMIT " +:+ pretty n) /\
  build_sql_query (JStr "raw") (JStr "orders") JNull = select_raw_orders /\
  build_sql_query (JStr "raw") (JStr "orders") (JInt 10)
  = select_raw_orders +:+ limit_ten.
Proof.
  split_and!.
  - unfold build_sql_query. simpl. rewrite !append_assoc. reflexivity.
  - intros n. unfold build_sql_query. simpl. rewrite !append_assoc. reflexivity.
  - reflexivity.
  - reflexivity.
Qed.

(** ** The routes *)

(** C10.  A request whose [x-api-key] header is the empty string is answered
    by both routes with the 401 of a request without the header, the world
    untouched, and whatever the handler behind the decorator is, it has no
    part in the answer. *)
Theorem empty_api_key_refused `{Repr} `{IntOfStr}
    (req : http_request) (slug : string) (w : world) :
  header_x_api_key req = Some "" ->
  post_api_queries req w = (Ret missing_api_key, w) /\
  get_api_queries_results slug req w = (Ret missing_api_key, w) /\
  post_api_queries (without_key req) w = (Ret missing_api_key, w) /\
  get_api_queries_results slug (without_key req) w = (Ret missing_api_key, w) /\
  (forall f, require_api_key f req w = (Ret missing_api_key, w)).
Proof.
  intros Hkey.
  unfold post_api_queries, get_api_queries_results, require_api_key.
  rewrite Hkey. simpl. auto.
Qed.

Lemma empty_api_key_refused_witness :
  let req := {| header_x_api_key := Some "";
                request_json := Some (JObj {[ "sql_query" := JStr "SELECT 1" ]});
                arg_page_number := Some "1" |} in
  post_api_queries req (idle []) = (Ret missing_api_key, idle []) /\
  get_api_queries_results "q" req (idle []) = (Ret missing_api_key, idle []).
Proof.
  intros req.
  destruct (empty_api_key_refused req "q" (idle []) eq_refl) as (Hpost & Hget & _).
  split; assumption.
Defined.

Lemma params_in_object d params :
  params_in params (JObj d)
  = Ret (List.filter (fun param => bool_decide (is_Some (d !! param))) params).
Proof.
  induction params as [|param params IH]; [reflexivity|].
  simpl. rewrite IH. unfold_monad.
  destruct (bool_decide (is_Some (d !! param))); reflexivity.
Qed.

Lemma truthy_object d key v : d !! key = Some v -> truthy (JObj d) = true.
Proof.
  intros Hd. simpl. apply negb_true_iff, bool_decide_eq_false.
  intros ->. rewrite lookup_empty in Hd. discriminate.
Qed.

(** Lines 364-378: the direct mode. *)
Lemma requested_sql_query_direct `{Repr} `{IntOfStr} d sql :
  d !! "sql_query" = Some sql ->
  truthy sql = true ->
  requested_sql_query (JObj d)
  = Ret (match supplied d with
         | [] => inr sql
         | _ =>
             inl (error_response 400
               (JStr ("When 'sql_query' is provided, these parameters are not allowed: "
                      +:+ join_comma (supplied d))))
         end).
Proof.
  intros Hsql Htruthy. unfold requested_sql_query. unfold_monad.
  rewrite get_object, Hsql. change (default JNull (Some sql)) with sql.
  rewrite Htruthy, params_in_object. fold (supplied d).
  destruct (supplied d); reflexivity.
Qed.

(** C8, as the code has it.  A request with a credential whose body carries
    a non-empty [sql_query] next to any of [layer], [table] and [limit] is
    answered 400 with the message that lists each of the parameters it
    carries, and nothing is sent upstream. *)
Theorem mixed_modes_refused `{Repr} `{IntOfStr}
    (req : http_request) (key : string) (d : gmap string json) (sql : json)
    (w : world) :
  header_x_api_key req = Some key ->
  key <> "" ->
  request_json req = Some (JObj d) ->
  d !! "sql_query" = Some sql ->
  truthy sql = true ->
  is_Some (d !! "layer") \/ is_Some (d !! "table") \/ is_Some (d !! "limit") ->
  post_api_queries req w
  = (Ret (error_response 400
            (JStr ("When 'sql_query' is provided, these parameters are not allowed: "
                   +:+ join_comma (supplied d)))), w) /\
  (forall param, is_Some (d !! param) ->
                 In param ["layer"; "table"; "limit"] ->
                 is_substring param (join_comma (supplied d)) = true).
Proof.
  intros Hkey Hne Hbody Hsql Htruthy Hany. split.
  - unfold post_api_queries, require_api_key. rewrite Hkey.
    apply String.eqb_neq in Hne. rewrite Hne.
    unfold create_query_endpoint. rewrite Hbody.
    unfold_monad. rewrite (truthy_object d _ _ Hsql).
    rewrite (requested_sql_query_direct d sql Hsql Htruthy).
    assert (Hsup : supplied d <> []).
    { unfold supplied. simpl.
      destruct Hany as [[x Hx]|[[x Hx]|[x Hx]]]; rewrite Hx; simpl;
        repeat (destruct (bool_decide _)); discriminate. }
    destruct (supplied d); [contradiction|reflexivity].
  - intros param [v Hv] Hin. unfold supplied. simpl in *.
    destruct Hin as [<-|[<-|[<-|[]]]]; rewrite Hv; simpl;
      destruct (d !! "layer"), (d !! "table"), (d !! "limit");
      try discriminate; reflexivity.
Qed.

Lemma mixed_modes_refused_witness :
  let req := post_with (JObj {[ "sql_query" := JStr "SELECT 1";
                                "layer" := JStr "x" ]}) in
  post_api_queries req (idle [])
  = (Ret (error_response 400
            (JStr "When 'sql_query' is provided, these parameters are not allowed: layer")),
     idle []).
Proof.
  intros req.
  destruct (mixed_modes_refused req "k"
              {[ "sql_query" := JStr "SELECT 1"; "layer" := JStr "x" ]}
              (JStr "SELECT 1") (idle [])) as [Hrefused _].
  - reflexivity.
  - discriminate.
  - reflexivity.
  - reflexivity.
  - reflexivity.
  - left. exists (JStr "x"). reflexivity.
  - exact Hrefused.
Defined.

(** C8, as the specification words it, fails: a body that carries an empty
    [sql_query] next to [layer] and [table] is served in the table mode; the
    answer is 200 and the upstream is called twice. *)
Lemma mixed_modes_counterexample :
  let d : gmap string json :=
    {[ "sql_query" := JStr ""; "layer" := JStr "x"; "table" := JStr "y" ]} in
  let run := post_api_queries (post_with (JObj d))
               (idle [status_reply 200 "active"; Reply created]) in
  is_Some (d !! "sql_query") /\
  is_Some (d !! "layer") /\
  run.1 = Ret {| http_status := 200;
                 http_body :=
                   JObj {[ "query_slug" := JStr "abc";
                           "sql_query" :=
                             JStr (build_sql_query (JStr "x") (JStr "y") JNull);
                           "status" := JStr "success";
                           "message" := JStr "Query created successfully" ]} |} /\
  trace run.2
  = [Exchange (start_request "k") (status_reply 200 "active");
     Exchange (create_request
                 (JStr (build_sql_query (JStr "x") (JStr "y") JNull)) "k")
       (Reply created)].
Proof.
  intros d run. split_and!.
  - exists (JStr ""). reflexivity.
  - exists (JStr "x"). reflexivity.
  - vm_compute. reflexivity.
  - vm_compute. reflexivity.
Qed.

(** ** create_query *)

(** C6, as the code has it.  When the POST that creates the query is
    answered with a status code outside 200 and 201, create_query returns
    [None] and no message; create_query_and_return_slug and the route put
    the fixed text "Failed to create query" in its place, and the route
    answers 500 with that text as its [error]. *)
Theorem create_query_failure `{Repr} `{IntOfStr}
    (sql : json) (key : string) (w : world) (r : response) (rest : list reply) :
  upstream w = Reply r :: rest ->
  not_ok r = true ->
  let w' := exchanged (create_request sql key) (Reply r) w in
  create_query sql key w = (Ret JNull, w') /\
  (forall w0,
     ensure_application_running key w0 = (Ret true, w) ->
     create_query_and_return_slug sql key w0
     = (Ret (JNull, JStr "Failed to create query"), w')) /\
  (forall w0 req data,
     ensure_application_running key w0 = (Ret true, w) ->
     header_x_api_key req = Some key -> key <> "" ->
     request_json req = Some data -> truthy data = true ->
     requested_sql_query data = Ret (inr sql) ->
     post_api_queries req w0
     = (Ret (error_response 500 (JStr "Failed to create query")), w')).
Proof.
  intros Hup Hbad w'.
  assert (Hcreate : create_query sql key w = (Ret JNull, w')).
  { unfold create_query, requests_post, send. unfold_monad.
    rewrite Hup. simpl. rewrite Hbad. reflexivity. }
  assert (Hslug : forall w0,
    ensure_application_running key w0 = (Ret true, w) ->
    create_query_and_return_slug sql key w0
    = (Ret (JNull, JStr "Failed to create query"), w')).
  { intros w0 Hready. unfold create_query_and_return_slug. unfold_monad.
    rewrite Hready. simpl. rewrite Hcreate. reflexivity. }
  split_and!; try assumption.
  intros w0 req data Hready Hkey Hne Hbody Htruthy Hsql.
  unfold post_api_queries, require_api_key. rewrite Hkey.
  apply String.eqb_neq in Hne. rewrite Hne.
  unfold create_query_endpoint. rewrite Hbody. unfold_monad.
  rewrite Htruthy, Hsql. simpl. rewrite (Hslug w0 Hready). reflexivity.
Qed.

Lemma create_query_failure_witness :
  post_api_queries (post_with (JObj {[ "sql_query" := JStr "SELECT 1" ]}))
    (idle [status_reply 200 "active"; Reply not_found])
  = (Ret (error_response 500 (JStr "Failed to create query")),
     exchanged (create_request (JStr "SELECT 1") "k") (Reply not_found)
       (started_by_k [Reply not_found])).
Proof.
  destruct (create_query_failure (JStr "SELECT 1") "k"
              (started_by_k [Reply not_found]) not_found [] eq_refl eq_refl)
    as (_ & _ & Hroute).
  apply (Hroute (idle [status_reply 200 "active"; Reply not_found])
           (post_with (JObj {[ "sql_query" := JStr "SELECT 1" ]}))
           (JObj {[ "sql_query" := JStr "SELECT 1" ]})).
  - vm_compute. reflexivity.
  - reflexivity.
  - discriminate.
  - reflexivity.
  - reflexivity.
  - vm_compute. reflexivity.
Defined.

(** C6, as the specification words it, fails: the failure of the creation
    POST carries no status code.  create_query returns [None], and the text
    the route answers with does not contain the 404 of the upstream. *)
Lemma create_query_failure_counterexample :
  let run := post_api_queries (post_with (JObj {[ "sql_query" := JStr "SELECT 1" ]}))
               (idle [status_reply 200 "active"; Reply not_found]) in
  status_code not_found = 404 /\
  (create_query (JStr "SELECT 1") "k" (started_by_k [Reply not_found])).1
  = Ret JNull /\
  run.1 = Ret (error_response 500 (JStr "Failed to create query")) /\
  is_substring (pretty (status_code not_found)) "Failed to create query" = false.
Proof.
  intros run. split_and!; vm_compute; reflexivity.
Qed.

(** * Further properties of the code *)

(** ** The triggering POST (lines 139-165) *)

Lemma trigger_error_message_extracted r :
  readable r = true ->
  trigger_error_message r = extracted_with_error (trigger_generic r) r.
Proof.
  unfold readable, trigger_error_message, extracted_with_error, or_text,
    response_json.
  intros Hr. destruct (body_json r) as [[| | | | | |d]|]; try discriminate;
    [|reflexivity].
  unfold plain_errors in Hr.
  unfold first_error_detail, errors_detail_present, errors_detail.
  unfold_monad. simpl.
  assert (Htail :
    (match contains "detail" (JObj d) with
     | Ret has_detail =>
         if has_detail then getitem (JObj d) "detail" else
         match contains "message" (JObj d) with
         | Ret has_message =>
             if has_message then getitem (JObj d) "message" else
             match contains "error" (JObj d) with
             | Ret has_error =>
                 if has_error then getitem (JObj d) "error"
                 else Ret (trigger_generic r)
             | Raise e => Raise e
             end
         | Raise e => Raise e
         end
     | Raise e => Raise e
     end)
    = Ret (match d !! "detail" with Some v => v | None =>
           match d !! "message" with Some v => v | None =>
           match d !! "error" with Some v => v | None =>
           trigger_generic r end end end)).
  { simpl. destruct (d !! "detail"); simpl; [reflexivity|].
    destruct (d !! "message"); simpl; [reflexivity|].
    destruct (d !! "error"); reflexivity. }
  unfold trigger_generic in *.
  destruct (d !! "errors") as [[| | | | |[|[| | | | | |entry] l]|]|];
    simpl in *; try discriminate; try (rewrite Htail; reflexivity).
  replace (0 <? Z.pos (Pos.of_succ_nat (length l))) with true
    by (symmetry; apply Z.ltb_lt; lia).
  destruct (entry !! "detail"); simpl; [reflexivity|rewrite Htail; reflexivity].
Qed.

(** X1.  When the POST that triggers the execution is answered with a status
    code outside 200 and 201 and with a body that is not JSON, or is a JSON
    object whose [errors] is absent, an empty list or a list starting with
    an object, execute_query sends nothing else and returns no table with
    the message of the full precedence: for the object the first present of
    [errors[0].detail], [detail], [message] and [error], else
    "Request failed with status code N"; for the body that is not JSON its
    text, else that generic message. *)
Theorem trigger_refused
    (slug : string) (page : Z) (key : string) (w : world)
    (r : response) (rest : list reply) :
  upstream w = Reply r :: rest ->
  not_ok r = true ->
  readable r = true ->
  execute_query slug page key w
  = (Ret (None, extracted_with_error (trigger_generic r) r),
     exchanged (trigger_request slug page key) (Reply r) w).
Proof.
  intros Hup Hbad Hr. rewrite execute_query_unfold.
  unfold requests_post, send. unfold_monad. rewrite Hup. simpl. rewrite Hbad.
  rewrite trigger_error_message_extracted by assumption. reflexivity.
Qed.

Lemma trigger_refused_witness :
  execute_query "q" 1 "k" (idle [Reply boom])
  = (Ret (None, JStr "boom"),
     exchanged (trigger_request "q" 1 "k") (Reply boom) (idle [Reply boom])).
Proof.
  apply (trigger_refused "q" 1 "k" (idle [Reply boom]) boom []); reflexivity.
Defined.

(** ** A failed execution (lines 209-217) *)

(** X2.  When the first status GET or a later poll shows "failed",
    execute_query stops polling, fetches no results and returns no table
    with the [error] of that execution object, else its [message], else
    "Query execution failed". *)
Theorem execution_failed
    (slug : string) (page : Z) (key : string) (w : world)
    (rp : response) (dp : gmap string json) (r0 : response)
    (polls : list response) (rest : list reply) (d : gmap string json) :
  upstream w = Reply rp :: Reply r0 :: map Reply polls ++ rest ->
  not_ok rp = false ->
  body_json rp = Some (JObj dp) ->
  polled failed r0 polls = true ->
  (length polls <= 150)%nat ->
  body_json (default r0 (last polls)) = Some (JObj d) ->
  execute_query slug page key w
  = (Ret (None, failure_message d),
     polled_world slug page key (default JNull (dp !! "id")) rp r0 polls rest w).
Proof.
  intros Hup Hok Hb Hpolled Hlen Hd.
  destruct (execute_query_polled slug page key failed w rp dp r0 polls rest)
    as (d' & Hd' & Hq & ->); try assumption.
  rewrite Hd in Hd'. injection Hd' as <-.
  unfold failed in Hq. pose proof Hq as Hs. apply eq_str_true in Hs.
  rewrite wait_for_execution_unfold. unfold after_polling, terminal.
  unfold_monad. simpl. fold (status_of d). rewrite Hq, orb_true_r. simpl.
  fold (status_of d). rewrite Hq. unfold failure_message.
  destruct (d !! "error"); simpl; [reflexivity|].
  destruct (d !! "message"); reflexivity.
Qed.

Lemma execution_failed_witness :
  let w := idle [Reply triggered; status_reply 200 "running"; Reply failing] in
  execute_query "q" 1 "k" w
  = (Ret (None, JStr "syntax error"),
     polled_world "q" 1 "k" (JInt 7) triggered (status_response 200 "running")
       [failing] [] w).
Proof.
  intros w.
  assert (Hid : default JNull (({[ "id" := JInt 7 ]} : gmap string json) !! "id")
                = JInt 7) by reflexivity.
  assert (Hmsg : failure_message
                   {[ "status" := JStr "failed"; "message" := JStr "syntax error" ]}
                 = JStr "syntax error") by reflexivity.
  rewrite <- Hid, <- Hmsg.
  apply (execution_failed "q" 1 "k" w triggered {[ "id" := JInt 7 ]}
           (status_response 200 "running") [failing] []
           {[ "status" := JStr "failed"; "message" := JStr "syntax error" ]}).
  - reflexivity.
  - reflexivity.
  - reflexivity.
  - reflexivity.
  - simpl. lia.
  - reflexivity.
Defined.

(** ** The results route on a failure (lines 436-450) *)

(** X3.  When the application is confirmed and execute_query returns no
    table, the results route answers 500 with the fixed [error]
    "Query execution failed", the slug, the page and, as [details], the
    message execute_query returned. *)
Theorem results_route_error `{IntOfStr}
    (slug key : string) (req : http_request) (page : Z) (details : json)
    (w0 w w' : world) :
  header_x_api_key req = Some key ->
  key <> "" ->
  requested_page req = Some page ->
  1 <= page ->
  ensure_application_running key w0 = (Ret true, w) ->
  execute_query slug page key w = (Ret (None, details), w') ->
  get_api_queries_results slug req w0
  = (Ret (execution_error slug page details), w').
Proof.
  intros Hkey Hne Hpage Hpos Hready Hrun.
  unfold get_api_queries_results, require_api_key. rewrite Hkey.
  apply String.eqb_neq in Hne. rewrite Hne.
  unfold execute_query_endpoint. rewrite Hpage.
  replace (page <? 1) with false by (symmetry; apply Z.ltb_ge; lia).
  unfold_monad. rewrite Hready. simpl. rewrite Hrun. reflexivity.
Qed.

Lemma results_route_error_witness :
  (get_api_queries_results "missing" (page_request (Some "3"))
     (idle [status_reply 200 "active"; Reply not_found])).1
  = Ret (execution_error "missing" 3 (JStr "Not found")).
Proof.
  erewrite (results_route_error "missing" "k" (page_request (Some "3")) 3
              (JStr "Not found")
              (idle [status_reply 200 "active"; Reply not_found])
              (started_by_k [Reply not_found])).
  - reflexivity.
  - reflexivity.
  - discriminate.
  - reflexivity.
  - lia.
  - vm_compute. reflexivity.
  - vm_compute. reflexivity.
Defined.

(** ** The polling loop of execute_query (lines 176-207) *)

Lemma wait_for_execution_run slug id key n : forall e w o w',
  wait_for_execution slug id key n e w = (o, w') ->
  exists rps,
    polled_run slug id key n w w' rps /\
    (rps <> [] -> exists d, e = JObj d /\ terminal (status_of d) = false).
Proof.
  induction n as [|n IH]; intros e w o w' Hrun;
    rewrite wait_for_execution_unfold in Hrun; unfold_monad.
  - exists []. unfold polled_run. simpl. rewrite app_nil_r.
    destruct (get e "status") as [st|x]; [destruct (terminal st)|];
      inversion Hrun; subst; split_and!; auto; congruence.
  - assert (Hnil : polled_run slug id key (S n) w w [] /\
                   (([] : list reply) <> [] ->
                    exists d, e = JObj d /\ terminal (status_of d) = false)).
    { unfold polled_run. simpl. rewrite app_nil_r.
      split_and!; auto with lia; congruence. }
    destruct (get e "status") as [st|x] eqn:Hget.
    2:{ exists []. inversion Hrun; subst. exact Hnil. }
    destruct (terminal st) eqn:Hst.
    { exists []. inversion Hrun; subst. exact Hnil. }
    apply get_ret in Hget as (d & -> & ->). fold (status_of d) in Hst.
    unfold sleep, requests_get, send in Hrun. simpl in Hrun.
    fold (execution_request slug id key) in Hrun.
    assert (Hone : forall rp,
      polled_run slug id key (S n) w
        (record (Exchange (execution_request slug id key) rp)
           (advance (record (Sleep 2) w))) [rp] /\
      ([rp] <> [] -> exists d0, JObj d = JObj d0 /\ terminal (status_of d0) = false)).
    { intros rp. unfold polled_run. simpl. rewrite <- app_assoc.
      split_and!; eauto with lia. }
    destruct (upstream w) as [|[r|] rest] eqn:Hup; simpl in Hrun.
    + exists [Unreachable]. inversion Hrun; subst. apply Hone.
    + destruct (not_ok r) eqn:Hok.
      { exists [Reply r]. inversion Hrun; subst. apply Hone. }
      destruct (response_json r) as [e'|x] eqn:Hjson.
      2:{ exists [Reply r]. inversion Hrun; subst. apply Hone. }
      apply response_json_ret in Hjson.
      apply IH in Hrun as (rps & (Hlen & Htr & Hall) & Hne).
      simpl in Htr. exists (Reply r :: rps). unfold polled_run. simpl.
      rewrite Htr, <- !app_assoc. simpl. split_and!.
      * lia.
      * reflexivity.
      * destruct rps as [|rp rps]; [exact I|]. split; [|assumption].
        destruct Hne as (d' & -> & Hterm); [discriminate|].
        exists r, d'. auto.
      * eauto.
    + exists [Unreachable]. inversion Hrun; subst. apply Hone.
Qed.

(** Lines 209-260 send at most the GET of the descriptor and the download,
    and never sleep. *)
Lemma after_polling_run slug id key waited w :
  exists post,
    trace (after_polling slug id key waited w).2 = trace w ++ post /\
    Forall is_exchange post /\ (length post <= 2)%nat.
Proof.
  assert (Hnone : forall t,
    t = trace w ->
    exists post, t = trace w ++ post /\
                 Forall is_exchange post /\ (length post <= 2)%nat).
  { intros t ->. exists []. rewrite app_nil_r. auto with lia. }
  assert (Hone : forall t rp,
    t = trace w ++ [Exchange (results_request slug id key) rp] ->
    exists post, t = trace w ++ post /\
                 Forall is_exchange post /\ (length post <= 2)%nat).
  { intros t rp ->. exists [Exchange (results_request slug id key) rp].
    split_and!; [reflexivity|repeat constructor|simpl; lia]. }
  assert (Htwo : forall t r u rp,
    t = (trace w ++ [Exchange (results_request slug id key) (Reply r)])
        ++ [Exchange (download_request u) rp] ->
    exists post, t = trace w ++ post /\
                 Forall is_exchange post /\ (length post <= 2)%nat).
  { intros t r u rp ->.
    exists [Exchange (results_request slug id key) (Reply r);
            Exchange (download_request u) rp].
    rewrite <- app_assoc. split_and!; [reflexivity|repeat constructor|simpl; lia]. }
  unfold after_polling. destruct waited as [msg|e]; [apply Hnone; reflexivity|].
  unfold_monad.
  destruct (get e "status") as [st|x]; [|apply Hnone; reflexivity].
  destruct (eq_str st "failed").
  { destruct (contains "error" e) as [[|]|x]; try (apply Hnone; reflexivity).
    - destruct (getitem e "error"); apply Hnone; reflexivity.
    - destruct (contains "message" e) as [[|]|x]; try (apply Hnone; reflexivity).
      destruct (getitem e "message"); apply Hnone; reflexivity. }
  destruct (negb (eq_str st "complete")); [apply Hnone; reflexivity|].
  unfold requests_get, send. fold (results_request slug id key).
  destruct (upstream w) as [|[r|] rest] eqn:Hup;
    try (eapply Hone; reflexivity).
  cbn beta iota. destruct (not_ok r); [eapply Hone; reflexivity|].
  destruct (response_json r) as [results|x]; [|eapply Hone; reflexivity].
  destruct (get results "presigned_url") as [u|x]; [|eapply Hone; reflexivity].
  unfold process_parquet_in_memory.
  destruct u as [| | | |u| |]; try (eapply Hone; reflexivity).
  unfold requests_get, send. unfold_monad. simpl upstream.
  fold (download_request u).
  destruct (tail (upstream w)) as [|[rf|] rest'] eqn:Hup';
    try (eapply Htwo; reflexivity).
  cbn beta iota. destruct (status_code rf =? 200); [|eapply Htwo; reflexivity].
  destruct (body_parquet rf); eapply Htwo; reflexivity.
Qed.

Lemma keeps_polling_reply r :
  keeps_polling (Reply r) -> not_ok r = false /\ ~ settled r.
Proof.
  intros (r' & d & [= <-] & Hok & Hb & Hs). split; [assumption|].
  intros (d' & Hb' & Hs'). rewrite Hb in Hb'. injection Hb' as <-. congruence.
Qed.

(** X4.  Every call of execute_query polls the execution at most
    floor(300/2) = 150 times, each poll after a sleep of two seconds; before
    the polls it only sends its POST and its first status GET, after them
    only the GET of the descriptor and the download; a poll that shows
    "complete" or "failed" or comes back with a status code outside 200 and
    201 is the last one. *)
Theorem execution_polling_bounded
    (slug : string) (page : Z) (key : string) (w : world) :
  exists pre id rps post,
    trace (execute_query slug page key w).2
    = trace w ++ pre ++ execution_poll_events slug id key rps ++ post /\
    Forall is_exchange pre /\ (length pre <= 2)%nat /\
    Forall is_exchange post /\ (length post <= 2)%nat /\
    Z.of_nat (length rps) <= QUERY_EXECUTION_TIMEOUT / 2 /\
    (forall i r, rps !! i = Some (Reply r) ->
                 settled r \/ not_ok r = true -> S i = length rps).
Proof.
  assert (Hlast : forall rps, all_but_last keeps_polling rps ->
    forall i r, rps !! i = Some (Reply r) ->
                settled r \/ not_ok r = true -> S i = length rps).
  { intros rps Hall i r Hi Hr. pose proof (lookup_lt_Some _ _ _ Hi) as Hlt.
    destruct (decide (S i = length rps)) as [|Hne]; [assumption|].
    exfalso. assert (Hk : keeps_polling (Reply r)).
    { apply (all_but_last_lookup _ rps i); [assumption..|lia]. }
    apply keeps_polling_reply in Hk as [Hok Hset].
    destruct Hr; [contradiction|congruence]. }
  assert (Hearly : forall t pre,
    t = trace w ++ pre -> Forall is_exchange pre -> (length pre <= 2)%nat ->
    exists pre id rps post,
      t = trace w ++ pre ++ execution_poll_events slug id key rps ++ post /\
      Forall is_exchange pre /\ (length pre <= 2)%nat /\
      Forall is_exchange post /\ (length post <= 2)%nat /\
      Z.of_nat (length rps) <= QUERY_EXECUTION_TIMEOUT / 2 /\
      (forall i r, rps !! i = Some (Reply r) ->
                   settled r \/ not_ok r = true -> S i = length rps)).
  { intros t pre -> Hpre Hlen. exists pre, JNull, [], []. simpl.
    rewrite app_nil_r. split_and!; auto with lia.
    - change (QUERY_EXECUTION_TIMEOUT / 2) with 150. lia.
    - intros i r Hi. discriminate. }
  rewrite execute_query_unfold. unfold requests_post, requests_get, send.
  unfold_monad. fold (trigger_request slug page key).
  destruct (upstream w) as [|[rp|] rest] eqn:Hup;
    try (eapply (Hearly _ [_]); [reflexivity|repeat constructor|simpl; lia]).
  cbn beta iota.
  destruct (not_ok rp);
    [eapply (Hearly _ [_]); [reflexivity|repeat constructor|simpl; lia]|].
  destruct (response_json rp) as [execution|x];
    [|eapply (Hearly _ [_]); [reflexivity|repeat constructor|simpl; lia]].
  destruct (get execution "id") as [id|x];
    [|eapply (Hearly _ [_]); [reflexivity|repeat constructor|simpl; lia]].
  simpl upstream. fold (execution_request slug id key).
  assert (Htwo : forall t rp0,
    t = (trace w ++ [Exchange (trigger_request slug page key) (Reply rp)])
        ++ [Exchange (execution_request slug id key) rp0] ->
    exists pre id rps post,
      t = trace w ++ pre ++ execution_poll_events slug id key rps ++ post /\
      Forall is_exchange pre /\ (length pre <= 2)%nat /\
      Forall is_exchange post /\ (length post <= 2)%nat /\
      Z.of_nat (length rps) <= QUERY_EXECUTION_TIMEOUT / 2 /\
      (forall i r, rps !! i = Some (Reply r) ->
                   settled r \/ not_ok r = true -> S i = length rps)).
  { intros t rp0 ->. eapply Hearly.
    - rewrite <- app_assoc. reflexivity.
    - repeat constructor.
    - simpl. lia. }
  destruct (tail (upstream w)) as [|[r0|] rest'] eqn:Hup';
    try (eapply Htwo; reflexivity).
  cbn beta iota.
  destruct (response_json r0) as [e|x]; [|eapply Htwo; reflexivity].
  destruct (wait_for_execution slug id key 150 e _) as [o w1] eqn:Hwait.
  apply wait_for_execution_run in Hwait as (rps & (Hlen & Htr & Hall) & _).
  simpl in Htr.
  assert (Hbound : Z.of_nat (length rps) <= QUERY_EXECUTION_TIMEOUT / 2).
  { change (QUERY_EXECUTION_TIMEOUT / 2) with 150. lia. }
  destruct o as [waited|x].
  - destruct (after_polling_run slug id key waited w1)
      as (post & Hpost & Hex & Hlen').
    exists [Exchange (trigger_request slug page key) (Reply rp);
            Exchange (execution_request slug id key) (Reply r0)], id, rps, post.
    rewrite Hpost, Htr, <- !app_assoc. simpl.
    split_and!; auto; try (apply Hlast; assumption); repeat constructor.
  - exists [Exchange (trigger_request slug page key) (Reply rp);
            Exchange (execution_request slug id key) (Reply r0)], id, rps, [].
    simpl. rewrite Htr, app_nil_r, <- !app_assoc. simpl.
    split_and!; auto; try (apply Hlast; assumption); repeat constructor.
Qed.

(** ** The result file (lines 45-57 and 249-250) *)

(** X5.  A result file that is downloaded with status code 200 but cannot be
    decoded is not reported as "Failed to process parquet file": the
    exception of the decoder leaves execute_query. *)
Theorem undecodable_file_raises
    (slug : string) (page : Z) (key : string) (w : world)
    (rp : response) (dp : gmap string json) (r0 : response)
    (polls : list response) (rd : response) (dd : gmap string json)
    (url : string) (rf : response) (rest : list reply) :
  upstream w
  = Reply rp :: Reply r0 :: map Reply polls ++ Reply rd :: Reply rf :: rest ->
  not_ok rp = false ->
  body_json rp = Some (JObj dp) ->
  polled complete r0 polls = true ->
  (length polls <= 150)%nat ->
  not_ok rd = false ->
  body_json rd = Some (JObj dd) ->
  dd !! "presigned_url" = Some (JStr url) ->
  status_code rf = 200 ->
  body_parquet rf = None ->
  execute_query slug page key w
  = (Raise ArrowInvalid,
     exchanged (download_request url) (Reply rf)
       (exchanged (results_request slug (default JNull (dp !! "id")) key) (Reply rd)
          (polled_world slug page key (default JNull (dp !! "id")) rp r0 polls
             (Reply rd :: Reply rf :: rest) w))).
Proof.
  intros Hup Hok Hb Hpolled Hlen Hokd Hbd Hurl Hcode Hdf.
  rewrite (execute_query_descriptor slug page key w rp dp r0 polls rd dd
             (Reply rf :: rest)) by assumption.
  rewrite Hurl. unfold process_parquet_in_memory, requests_get, send.
  unfold_monad. simpl. rewrite Hcode, Hdf. reflexivity.
Qed.

Lemma undecodable_file_raises_witness :
  (execute_query "q" 1 "k" (idle (up_to_descriptor descriptor ++ [Reply corrupt]))).1
  = Raise ArrowInvalid.
Proof.
  rewrite (undecodable_file_raises "q" 1 "k"
             (idle (up_to_descriptor descriptor ++ [Reply corrupt]))
             triggered {[ "id" := JInt 7 ]} (status_response 200 "complete") []
             descriptor
             {[ "presigned_url" := JStr "https://files.example/page.parquet" ]}
             "https://files.example/page.parquet" corrupt []
             eq_refl eq_refl eq_refl eq_refl (le_0_n 150)
             eq_refl eq_refl eq_refl eq_refl eq_refl).
  reflexivity.
Defined.

(** X6.  A results descriptor without [presigned_url] makes execute_query
    raise before any download is attempted. *)
Theorem descriptor_without_url_raises
    (slug : string) (page : Z) (key : string) (w : world)
    (rp : response) (dp : gmap string json) (r0 : response)
    (polls : list response) (rd : response) (dd : gmap string json)
    (rest : list reply) :
  upstream w = Reply rp :: Reply r0 :: map Reply polls ++ Reply rd :: rest ->
  not_ok rp = false ->
  body_json rp = Some (JObj dp) ->
  polled complete r0 polls = true ->
  (length polls <= 150)%nat ->
  not_ok rd = false ->
  body_json rd = Some (JObj dd) ->
  dd !! "presigned_url" = None ->
  execute_query slug page key w
  = (Raise MissingSchema,
     exchanged (results_request slug (default JNull (dp !! "id")) key) (Reply rd)
       (polled_world slug page key (default JNull (dp !! "id")) rp r0 polls
          (Reply rd :: rest) w)).
Proof.
  intros Hup Hok Hb Hpolled Hlen Hokd Hbd Hurl.
  rewrite (execute_query_descriptor slug page key w rp dp r0 polls rd dd rest)
    by assumption.
  rewrite Hurl. reflexivity.
Qed.

Lemma descriptor_without_url_raises_witness :
  let w := idle (up_to_descriptor bare_descriptor ++ [Reply downloaded]) in
  (execute_query "q" 1 "k" w).1 = Raise MissingSchema /\
  upstream (execute_query "q" 1 "k" w).2 = [Reply downloaded].
Proof.
  intros w.
  rewrite (descriptor_without_url_raises "q" 1 "k" w
             triggered {[ "id" := JInt 7 ]} (status_response 200 "complete") []
             bare_descriptor ∅ [Reply downloaded]
             eq_refl eq_refl eq_refl eq_refl (le_0_n 150)
             eq_refl eq_refl eq_refl).
  split; reflexivity.
Defined.

(** ** Starting the application (lines 84-119) *)

Lemma awaited_unfold q r polls :
  awaited q r polls =
  match object_status r with
  | None => false
  | Some status =>
      match polls with
      | [] => q status
      | p :: polls' =>
          negb (eq_str status "active") && negb (not_ok p) && awaited q p polls'
      end
  end.
Proof. destruct polls; reflexivity. Qed.

(** The loop follows the responses of an [awaited] run one by one and
    arrives at the last of them with the budget they left. *)
Lemma wait_until_active_awaited key q polls :
  forall r n w rest,
    awaited q r polls = true ->
    (length polls <= n)%nat ->
    upstream w = map Reply polls ++ rest ->
    exists d,
      body_json (default r (last polls)) = Some (JObj d) /\
      q (status_of d) = true /\
      forall e, body_json r = Some e ->
        wait_until_active key n e w
        = wait_until_active key (n - length polls) (JObj d)
            {| application_status := application_status w;
               upstream := rest;
               trace := trace w ++ poll_events key (map Reply polls) |}.
Proof.
  induction polls as [|p polls IH]; intros r n w rest Hawaited Hlen Hup;
    rewrite awaited_unfold in Hawaited;
    destruct (object_status r) as [st|] eqn:Hst; try discriminate;
    apply object_status_some in Hst as (d & Hb & ->); simpl in *.
  - exists d. split_and!; try assumption. intros e He.
    rewrite Hb in He. injection He as <-.
    rewrite Nat.sub_0_r, app_nil_r, <- Hup, world_eta. reflexivity.
  - apply andb_prop in Hawaited as [Hawaited Hrest].
    apply andb_prop in Hawaited as [Hpend Hok].
    apply negb_true_iff in Hpend, Hok.
    destruct n as [|n]; [lia|].
    destruct (IH p n (exchanged (status_request key) (Reply p)
                        (record (Sleep 5) w)) rest) as (d' & Hb' & HQ' & Hrun).
    { assumption. }
    { lia. }
    { unfold exchanged. simpl. rewrite Hup. reflexivity. }
    exists d'. split_and!.
    + destruct polls as [|p' polls]; [exact Hb'|].
      change (last (p :: p' :: polls)) with (last (p' :: polls)).
      destruct (last (p' :: polls)) eqn:Hl; [exact Hb'|].
      apply last_None in Hl. discriminate.
    + assumption.
    + intros e He. rewrite Hb in He. injection He as <-.
      rewrite wait_until_active_unfold.
      unfold sleep, requests_get, send, response_json. unfold_monad. simpl.
      fold (status_of d). rewrite Hpend, Hup. simpl. rewrite Hok.
      destruct (body_json p) as [e'|] eqn:Hp.
      2:{ rewrite awaited_unfold in Hrest. unfold object_status in Hrest.
          rewrite Hp in Hrest. discriminate. }
      fold (status_request key).
      fold (exchanged (status_request key) (Reply p) (record (Sleep 5) w)).
      rewrite (Hrun e' eq_refl). unfold exchanged. simpl.
      rewrite <- !app_assoc. reflexivity.
Qed.

(** The same for lines 84-119 as a whole. *)
Lemma start_application_awaited key q w rs polls rest :
  upstream w = Reply rs :: map Reply polls ++ rest ->
  not_ok rs = false ->
  awaited q rs polls = true ->
  (length polls <= 60)%nat ->
  exists d,
    q (status_of d) = true /\
    start_application key w
    = (polled ← wait_until_active key (60 - length polls) (JObj d);
       match polled with
       | None => mret false
       | Some data =>
           status ← lift (get data "status");
           if eq_str status "active" then
             _ ← assign_application_status (Some "active");
             mret true
           else mret false
       end) (started_world key (application_status w) rs polls rest w).
Proof.
  intros Hup Hok Hawaited Hlen.
  destruct (wait_until_active_awaited key q polls rs 60%nat
              (exchanged (start_request key) (Reply rs) w) rest)
    as (d & _ & Hq & Hrun).
  { assumption. }
  { assumption. }
  { unfold exchanged. simpl. rewrite Hup. reflexivity. }
  exists d. split; [assumption|].
  unfold start_application, requests_post, send, response_json. unfold_monad.
  rewrite Hup. simpl. rewrite Hok.
  rewrite awaited_unfold in Hawaited.
  destruct (object_status rs) as [st|] eqn:Hst; [|discriminate].
  apply object_status_some in Hst as (d0 & Hb0 & ->). rewrite Hb0.
  change (Z.to_nat (APPLICATION_START_TIMEOUT / 5)) with 60%nat.
  fold (start_request key).
  fold (exchanged (start_request key) (Reply rs) w).
  rewrite (Hrun (JObj d0) Hb0). unfold started_world, exchanged. simpl.
  rewrite <- !app_assoc. reflexivity.
Qed.

(** X7.  With the flag not set, a start POST answered with a status code
    outside 200 and 201 makes ensure_application_running return [False]
    after that single request: no poll, no sleep, the flag untouched. *)
Theorem start_refused (key : string) (w : world) (r : response) (rest : list reply) :
  is_active (application_status w) = false ->
  upstream w = Reply r :: rest ->
  not_ok r = true ->
  ensure_application_running key w
  = (Ret false, exchanged (start_request key) (Reply r) w).
Proof.
  intros Hflag Hup Hbad. rewrite ensure_not_cached by assumption.
  unfold start_application, requests_post, send. unfold_monad.
  rewrite Hup. simpl. rewrite Hbad. reflexivity.
Qed.

Lemma start_refused_witness :
  ensure_application_running "k" (idle [Reply bad_gateway])
  = (Ret false, exchanged (start_request "k") (Reply bad_gateway)
                  (idle [Reply bad_gateway])).
Proof.
  apply (start_refused "k" (idle [Reply bad_gateway]) bad_gateway []); reflexivity.
Defined.

(** X8.  With the flag not set, when the start POST succeeds and the
    application shows "active" in its answer or in that of one of the at
    most 60 polls that follow, ensure_application_running returns [True]
    right after that answer and sets the flag. *)
Theorem application_becomes_active
    (key : string) (w : world) (rs : response) (polls : list response)
    (rest : list reply) :
  is_active (application_status w) = false ->
  upstream w = Reply rs :: map Reply polls ++ rest ->
  not_ok rs = false ->
  awaited shows_active rs polls = true ->
  (length polls <= 60)%nat ->
  ensure_application_running key w
  = (Ret true, started_world key (Some "active") rs polls rest w).
Proof.
  intros Hflag Hup Hok Hawaited Hlen. rewrite ensure_not_cached by assumption.
  destruct (start_application_awaited key shows_active w rs polls rest)
    as (d & Hq & ->); try assumption.
  unfold shows_active in Hq.
  rewrite wait_until_active_unfold. unfold_monad. simpl.
  fold (status_of d). rewrite Hq. simpl. fold (status_of d). rewrite Hq.
  reflexivity.
Qed.

Lemma application_becomes_active_witness :
  let w := idle [status_reply 200 "starting"; status_reply 200 "starting";
                 status_reply 200 "active"] in
  ensure_application_running "k" w
  = (Ret true,
     started_world "k" (Some "active") (status_response 200 "starting")
       [status_response 200 "starting"; status_response 200 "active"] [] w).
Proof.
  intros w.
  apply (application_becomes_active "k" w (status_response 200 "starting")
           [status_response 200 "starting"; status_response 200 "active"] []).
  - reflexivity.
  - reflexivity.
  - reflexivity.
  - reflexivity.
  - simpl. lia.
Defined.

(** X9.  With the flag not set, when the start POST succeeds and neither its
    answer nor any of the floor(300/5) = 60 polls that follow, each answered
    200 or 201, shows "active", ensure_application_running returns [False]
    and leaves the flag as it was. *)
Theorem application_start_times_out
    (key : string) (w : world) (rs : response) (polls : list response)
    (rest : list reply) :
  is_active (application_status w) = false ->
  upstream w = Reply rs :: map Reply polls ++ rest ->
  not_ok rs = false ->
  awaited shows_inactive rs polls = true ->
  Z.of_nat (length polls) = APPLICATION_START_TIMEOUT / 5 ->
  ensure_application_running key w
  = (Ret false, started_world key (application_status w) rs polls rest w).
Proof.
  intros Hflag Hup Hok Hawaited Hlen. rewrite ensure_not_cached by assumption.
  change (APPLICATION_START_TIMEOUT / 5) with 60 in Hlen.
  destruct (start_application_awaited key shows_inactive w rs polls rest)
    as (d & Hq & ->); try assumption; [lia|].
  unfold shows_inactive in Hq. apply negb_true_iff in Hq.
  replace (60 - length polls)%nat with 0%nat by lia.
  rewrite wait_until_active_unfold. unfold_monad. simpl.
  fold (status_of d). rewrite Hq. simpl. fold (status_of d). rewrite Hq.
  reflexivity.
Qed.

Lemma application_start_times_out_witness :
  let starting := status_response 200 "starting" in
  let w := idle (repeat (Reply starting) 61) in
  ensure_application_running "k" w
  = (Ret false, started_world "k" None starting (repeat starting 60) [] w).
Proof.
  intros starting w.
  apply (application_start_times_out "k" w starting (repeat starting 60) []).
  - reflexivity.
  - vm_compute. reflexivity.
  - reflexivity.
  - vm_compute. reflexivity.
  - vm_compute. reflexivity.
Defined.

(** ** The confirmation GET (lines 76-82) *)

(** X10.  With the flag set, a confirmation GET whose reply gives no status
    to read (no response, a body that is not JSON, JSON that is not an
    object) makes ensure_application_running raise after that single
    request: the flag stays set and no start is posted. *)
Theorem unreadable_confirmation_raises
    (key : string) (w : world) (rp : reply) (rest : list reply) :
  is_active (application_status w) = true ->
  upstream w = rp :: rest ->
  unreadable rp = true ->
  exists e,
    ensure_application_running key w
    = (Raise e,
       {| application_status := application_status w;
          upstream := rest;
          trace := trace w ++ [Exchange (status_request key) rp] |}).
Proof.
  intros Hflag Hup Hrp. rewrite ensure_application_running_unfold.
  unfold read_application_status, requests_get, send, response_json.
  unfold_monad. rewrite Hflag, Hup. fold (status_request key).
  unfold record, advance. rewrite Hup. simpl.
  destruct rp as [r|]; [|eauto]. simpl in Hrp.
  destruct (body_json r) as [[| | | | | |d]|]; try discriminate; simpl; eauto.
Qed.

Lemma unreadable_confirmation_raises_witness :
  ensure_application_running "k" (ready [Reply bad_gateway; status_reply 200 "active"])
  = (Raise JSONDecodeError,
     {| application_status := Some "active";
        upstream := [status_reply 200 "active"];
        trace := [Exchange (status_request "k") (Reply bad_gateway)] |}).
Proof.
  destruct (unreadable_confirmation_raises "k"
              (ready [Reply bad_gateway; status_reply 200 "active"])
              (Reply bad_gateway) [status_reply 200 "active"]
              eq_refl eq_refl eq_refl) as [e He].
  rewrite He. vm_compute in He. injection He as <-. reflexivity.
Defined.

(** ** When the application does not start (lines 333-335 and 436-438) *)

(** X11.  When ensure_application_running returns [False],
    create_query_and_return_slug and both routes stop there: nothing more
    is sent upstream, and the routes answer 500 with the [error]
    "Failed to start application". *)
Theorem application_not_started `{Repr} `{IntOfStr} (key : string) (w0 w' : world) :
  ensure_application_running key w0 = (Ret false, w') ->
  key <> "" ->
  (forall sql,
     create_query_and_return_slug sql key w0
     = (Ret (JNull, JStr "Failed to start application"), w')) /\
  (forall req data sql,
     header_x_api_key req = Some key ->
     request_json req = Some data -> truthy data = true ->
     requested_sql_query data = Ret (inr sql) ->
     post_api_queries req w0 = (Ret not_started, w')) /\
  (forall req slug page,
     header_x_api_key req = Some key ->
     requested_page req = Some page -> 1 <= page ->
     get_api_queries_results slug req w0 = (Ret not_started, w')).
Proof.
  intros Hrun Hne. apply String.eqb_neq in Hne.
  assert (Hslug : forall sql,
    create_query_and_return_slug sql key w0
    = (Ret (JNull, JStr "Failed to start application"), w')).
  { intros sql. unfold create_query_and_return_slug. unfold_monad.
    rewrite Hrun. reflexivity. }
  split_and!; [exact Hslug| |].
  - intros req data sql Hkey Hbody Htruthy Hsql.
    unfold post_api_queries, require_api_key. rewrite Hkey, Hne.
    unfold create_query_endpoint. rewrite Hbody. unfold_monad.
    rewrite Htruthy, Hsql. simpl. rewrite Hslug. reflexivity.
  - intros req slug page Hkey Hpage Hpos.
    unfold get_api_queries_results, require_api_key. rewrite Hkey, Hne.
    unfold execute_query_endpoint. rewrite Hpage.
    replace (page <? 1) with false by (symmetry; apply Z.ltb_ge; lia).
    unfold_monad. rewrite Hrun. reflexivity.
Qed.

Lemma application_not_started_witness :
  let w0 := idle [Reply bad_gateway; Reply created] in
  post_api_queries (post_with (JObj {[ "sql_query" := JStr "SELECT 1" ]})) w0
  = (Ret not_started, exchanged (start_request "k") (Reply bad_gateway) w0) /\
  get_api_queries_results "q" (page_request None) w0
  = (Ret not_started, exchanged (start_request "k") (Reply bad_gateway) w0).
Proof.
  intros w0.
  destruct (application_not_started "k" w0
              (exchanged (start_request "k") (Reply bad_gateway) w0))
    as (_ & Hpost & Hget).
  - vm_compute. reflexivity.
  - discriminate.
  - split.
    + apply (Hpost _ (JObj {[ "sql_query" := JStr "SELECT 1" ]}) (JStr "SELECT 1"));
        [reflexivity|reflexivity|reflexivity|vm_compute; reflexivity].
    + apply (Hget _ "q" 1); [reflexivity|reflexivity|lia].
Defined.

(** ** Creating the query (lines 277-293, 337-342 and 405-418) *)

(** X12.  When the application is confirmed and the creation POST is
    answered 200 or 201 with an object whose [slug] is not empty, the route
    answers 200 with that slug and with the very SQL text it posted
    upstream. *)
Theorem query_created `{Repr} `{IntOfStr}
    (key : string) (req : http_request) (data sql : json) (w0 w : world)
    (r : response) (d : gmap string json) (slug : json) (rest : list reply) :
  header_x_api_key req = Some key ->
  key <> "" ->
  request_json req = Some data ->
  truthy data = true ->
  requested_sql_query data = Ret (inr sql) ->
  ensure_application_running key w0 = (Ret true, w) ->
  upstream w = Reply r :: rest ->
  not_ok r = false ->
  body_json r = Some (JObj d) ->
  d !! "slug" = Some slug ->
  truthy slug = true ->
  post_api_queries req w0
  = (Ret (query_created_response slug sql),
     exchanged (create_request sql key) (Reply r) w).
Proof.
  intros Hkey Hne Hbody Htruthy Hsql Hready Hup Hok Hb Hslug Hts.
  apply String.eqb_neq in Hne.
  unfold post_api_queries, require_api_key. rewrite Hkey, Hne.
  unfold create_query_endpoint. rewrite Hbody. unfold_monad.
  rewrite Htruthy, Hsql. simpl.
  unfold create_query_and_return_slug. unfold_monad. rewrite Hready. simpl.
  unfold create_query, requests_post, send, response_json. unfold_monad.
  rewrite Hup. simpl. rewrite Hok, Hb. simpl. rewrite Hslug. simpl.
  rewrite Hts. simpl.
  destruct slug; try discriminate; reflexivity.
Qed.

Lemma query_created_witness :
  post_api_queries (post_with (JObj {[ "sql_query" := JStr "SELECT 1" ]}))
    (idle [status_reply 200 "active"; Reply created])
  = (Ret (query_created_response (JStr "abc") (JStr "SELECT 1")),
     exchanged (create_request (JStr "SELECT 1") "k") (Reply created)
       (started_by_k [Reply created])).
Proof.
  apply (query_created "k" _ (JObj {[ "sql_query" := JStr "SELECT 1" ]})
           (JStr "SELECT 1")
           (idle [status_reply 200 "active"; Reply created])
           (started_by_k [Reply created]) created {[ "slug" := JStr "abc" ]}
           (JStr "abc") []).
  - reflexivity.
  - discriminate.
  - reflexivity.
  - reflexivity.
  - vm_compute. reflexivity.
  - vm_compute. reflexivity.
  - reflexivity.
  - reflexivity.
  - reflexivity.
  - reflexivity.
  - reflexivity.
Defined.

(** X13.  A creation POST answered 200 or 201 whose object has no [slug], or
    an empty one, is a failure all the same: the route answers 500 with
    "Failed to create query". *)
Theorem query_without_slug `{Repr} `{IntOfStr}
    (key : string) (req : http_request) (data sql : json) (w0 w : world)
    (r : response) (d : gmap string json) (rest : list reply) :
  header_x_api_key req = Some key ->
  key <> "" ->
  request_json req = Some data ->
  truthy data = true ->
  requested_sql_query data = Ret (inr sql) ->
  ensure_application_running key w0 = (Ret true, w) ->
  upstream w = Reply r :: rest ->
  not_ok r = false ->
  body_json r = Some (JObj d) ->
  truthy (default JNull (d !! "slug")) = false ->
  post_api_queries req w0
  = (Ret (error_response 500 (JStr "Failed to create query")),
     exchanged (create_request sql key) (Reply r) w).
Proof.
  intros Hkey Hne Hbody Htruthy Hsql Hready Hup Hok Hb Hts.
  apply String.eqb_neq in Hne.
  unfold post_api_queries, require_api_key. rewrite Hkey, Hne.
  unfold create_query_endpoint. rewrite Hbody. unfold_monad.
  rewrite Htruthy, Hsql. simpl.
  unfold create_query_and_return_slug. unfold_monad. rewrite Hready. simpl.
  unfold create_query, requests_post, send, response_json. unfold_monad.
  rewrite Hup. simpl. rewrite Hok, Hb. simpl. rewrite Hts. reflexivity.
Qed.

Lemma query_without_slug_witness :
  post_api_queries (post_with (JObj {[ "sql_query" := JStr "SELECT 1" ]}))
    (idle [status_reply 200 "active"; Reply nameless])
  = (Ret (error_response 500 (JStr "Failed to create query")),
     exchanged (create_request (JStr "SELECT 1") "k") (Reply nameless)
       (started_by_k [Reply nameless])).
Proof.
  apply (query_without_slug "k" _ (JObj {[ "sql_query" := JStr "SELECT 1" ]})
           (JStr "SELECT 1")
           (idle [status_reply 200 "active"; Reply nameless])
           (started_by_k [Reply nameless]) nameless {[ "name" := JStr "q1" ]} []).
  - reflexivity.
  - discriminate.
  - reflexivity.
  - reflexivity.
  - vm_compute. reflexivity.
  - vm_compute. reflexivity.
  - reflexivity.
  - reflexivity.
  - reflexivity.
  - reflexivity.
Defined.

(** ** Validation of the creation request (lines 355-401) *)

Lemma requested_sql_query_table `{Repr} `{IntOfStr} d :
  truthy (field d "sql_query") = false ->
  requested_sql_query (JObj d)
  = (if negb (truthy (field d "layer")) then Ret (inl (missing_parameter "layer"))
     else if negb (truthy (field d "table")) then
       Ret (inl (missing_parameter "table"))
     else if negb (is_none (field d "limit")) then
       match int (field d "limit") with
       | Ret n =>
           if n <=? 0 then Ret (inl limit_not_positive)
           else Ret (inr (JStr (build_sql_query (field d "layer") (field d "table")
                                  (JInt n))))
       | Raise ValueError | Raise TypeError => Ret (inl limit_not_integer)
       | Raise e => Raise e
       end
     else Ret (inr (JStr (build_sql_query (field d "layer") (field d "table")
                            (field d "limit"))))).
Proof.
  intros Hsql. unfold requested_sql_query. unfold_monad.
  rewrite !get_object. fold (field d "sql_query"). rewrite Hsql.
  reflexivity.
Qed.

Lemma int_raises `{IntOfStr} v e :
  int v = Raise e -> e = ValueError \/ e = TypeError \/ e = OverflowError.
Proof.
  destruct v as [| | |[]| | |]; simpl; try (intros [= <-]; auto);
    try discriminate.
  destruct (int_of_str s); [discriminate|]. intros [= <-]. auto.
Qed.

(** X14.  What the validation accepts: either a non-empty [sql_query] in a
    body that carries none of [layer], [table] and [limit], passed on as it
    is; or, without such a [sql_query], a non-empty [layer] and [table]
    whose text is built by build_sql_query, with no limit when [limit] is
    absent or null and otherwise with the value of [int(limit)], which is
    then positive. *)
Theorem requested_sql_query_sound `{Repr} `{IntOfStr} (data sql : json) :
  requested_sql_query data = Ret (inr sql) ->
  exists d,
    data = JObj d /\
    ((d !! "sql_query" = Some sql /\ truthy sql = true /\ supplied d = []) \/
     (truthy (field d "sql_query") = false /\
      truthy (field d "layer") = true /\
      truthy (field d "table") = true /\
      ((is_none (field d "limit") = true /\
        sql = JStr (build_sql_query (field d "layer") (field d "table") JNull)) \/
       (exists n, int (field d "limit") = Ret n /\ 0 < n /\
                  sql = JStr (build_sql_query (field d "layer") (field d "table")
                                (JInt n)))))).
Proof.
  intros Hrun.
  destruct data as [| | | | | |d]; try discriminate. exists d.
  split; [reflexivity|].
  destruct (truthy (field d "sql_query")) eqn:Hsql.
  - left. unfold field in Hsql.
    destruct (d !! "sql_query") as [v|] eqn:Hv; [|discriminate]. simpl in Hsql.
    rewrite (requested_sql_query_direct d v Hv Hsql) in Hrun.
    destruct (supplied d); [|discriminate].
    injection Hrun as <-. auto.
  - right. rewrite (requested_sql_query_table d Hsql) in Hrun.
    destruct (truthy (field d "layer")); [|discriminate].
    destruct (truthy (field d "table")); [|discriminate]. simpl in Hrun.
    split_and!; try reflexivity.
    destruct (is_none (field d "limit")) eqn:Hnone; simpl in Hrun.
    + left. split; [reflexivity|].
      destruct (field d "limit"); try discriminate. injection Hrun as <-.
      reflexivity.
    + right. destruct (int (field d "limit")) as [n|e] eqn:Hint.
      * destruct (n <=? 0) eqn:Hn; [discriminate|].
        injection Hrun as <-. exists n. apply Z.leb_gt in Hn. auto.
      * destruct (int_raises _ _ Hint) as [-> | [-> | ->]]; discriminate.
Qed.

Lemma requested_sql_query_sound_witness :
  exists d : gmap string json,
    JObj {[ "layer" := JStr "raw"; "table" := JStr "orders"; "limit" := JStr "10" ]}
    = JObj d /\
    ((d !! "sql_query" = Some (JStr (select_raw_orders +:+ limit_ten)) /\
      truthy (JStr (select_raw_orders +:+ limit_ten)) = true /\ supplied d = []) \/
     (truthy (field d "sql_query") = false /\
      truthy (field d "layer") = true /\
      truthy (field d "table") = true /\
      ((is_none (field d "limit") = true /\
        JStr (select_raw_orders +:+ limit_ten)
        = JStr (build_sql_query (field d "layer") (field d "table") JNull)) \/
       (exists n, int (field d "limit") = Ret n /\ 0 < n /\
                  JStr (select_raw_orders +:+ limit_ten)
                  = JStr (build_sql_query (field d "layer") (field d "table")
                            (JInt n)))))).
Proof.
  apply (requested_sql_query_sound
           (JObj {[ "layer" := JStr "raw"; "table" := JStr "orders";
                    "limit" := JStr "10" ]})
           (JStr (select_raw_orders +:+ limit_ten))).
  vm_compute. reflexivity.
Defined.

(** X15.  What the validation does, in this order, when the body has no
    non-empty [sql_query]: it refuses a missing or empty [layer], then a
    missing or empty [table], each with the 400 that names it; then, for a
    [limit] that is not null, it refuses with "Limit must be a valid
    integer" when [int(limit)] raises [ValueError] or [TypeError], lets the
    [OverflowError] of an infinite float escape, and refuses with "Limit
    must be a positive integer" when the value is not positive. *)
Theorem table_mode_refusals `{Repr} `{IntOfStr} (d : gmap string json) :
  truthy (field d "sql_query") = false ->
  (truthy (field d "layer") = false ->
   requested_sql_query (JObj d) = Ret (inl (missing_parameter "layer"))) /\
  (truthy (field d "layer") = true -> truthy (field d "table") = false ->
   requested_sql_query (JObj d) = Ret (inl (missing_parameter "table"))) /\
  (truthy (field d "layer") = true -> truthy (field d "table") = true ->
   is_none (field d "limit") = false ->
   (forall e, int (field d "limit") = Raise e ->
              e = ValueError \/ e = TypeError ->
              requested_sql_query (JObj d) = Ret (inl limit_not_integer)) /\
   (int (field d "limit") = Raise OverflowError ->
    requested_sql_query (JObj d) = Raise OverflowError) /\
   (forall n, int (field d "limit") = Ret n -> n <= 0 ->
              requested_sql_query (JObj d) = Ret (inl limit_not_positive))).
Proof.
  intros Hsql. rewrite (requested_sql_query_table d Hsql). split_and!.
  - intros ->. reflexivity.
  - intros -> ->. reflexivity.
  - intros -> -> ->. simpl. split_and!.
    + intros e Hint He. rewrite Hint. destruct He as [-> | ->]; reflexivity.
    + intros ->. reflexivity.
    + intros n Hint Hn. rewrite Hint.
      replace (n <=? 0) with true by (symmetry; apply Z.leb_le; assumption).
      reflexivity.
Qed.

Lemma table_mode_refusals_witness :
  requested_sql_query (JObj {[ "layer" := JStr "x" ]})
  = Ret (inl (missing_parameter "table")) /\
  requested_sql_query
    (JObj {[ "layer" := JStr "x"; "table" := JStr "y"; "limit" := JInt 0 ]})
  = Ret (inl limit_not_positive) /\
  requested_sql_query
    (JObj {[ "layer" := JStr "x"; "table" := JStr "y";
             "limit" := JFloat Infinity ]})
  = Raise OverflowError.
Proof.
  split_and!.
  - destruct (table_mode_refusals {[ "layer" := JStr "x" ]}) as (_ & Htable & _).
    + vm_compute. reflexivity.
    + apply Htable; vm_compute; reflexivity.
  - destruct (table_mode_refusals
                {[ "layer" := JStr "x"; "table" := JStr "y"; "limit" := JInt 0 ]})
      as (_ & _ & Hlimit).
    + vm_compute. reflexivity.
    + assert (Hpositive := proj2 (proj2 (Hlimit eq_refl eq_refl eq_refl))).
      apply (Hpositive 0); [vm_compute; reflexivity|lia].
  - destruct (table_mode_refusals
                {[ "layer" := JStr "x"; "table" := JStr "y";
                   "limit" := JFloat Infinity ]})
      as (_ & _ & Hlimit).
    + vm_compute. reflexivity.
    + assert (Hescapes := proj1 (proj2 (Hlimit eq_refl eq_refl eq_refl))).
      apply Hescapes. vm_compute. reflexivity.
Defined.

Lemma requested_sql_query_refusal `{Repr} `{IntOfStr} data refused :
  requested_sql_query data = Ret (inl refused) -> http_status refused = 400.
Proof.
  intros Hrun. destruct data as [| | | | | |d]; try discriminate.
  destruct (truthy (field d "sql_query")) eqn:Hsql.
  - unfold field in Hsql.
    destruct (d !! "sql_query") as [v|] eqn:Hv; [|discriminate]. simpl in Hsql.
    rewrite (requested_sql_query_direct d v Hv Hsql) in Hrun.
    destruct (supplied d); [discriminate|]. injection Hrun as <-. reflexivity.
  - rewrite (requested_sql_query_table d Hsql) in Hrun.
    destruct (truthy (field d "layer")); simpl in Hrun;
      [|injection Hrun as <-; reflexivity].
    destruct (truthy (field d "table")); simpl in Hrun;
      [|injection Hrun as <-; reflexivity].
    destruct (is_none (field d "limit")); simpl in Hrun; [discriminate|].
    destruct (int (field d "limit")) as [n|e] eqn:Hint.
    + destruct (n <=? 0); [|discriminate]. injection Hrun as <-. reflexivity.
    + destruct (int_raises _ _ Hint) as [-> | [-> | ->]];
        try discriminate; injection Hrun as <-; reflexivity.
Qed.

(** X16.  A creation request that the validation refuses is answered 400
    without anything being sent upstream and without the readiness flag
    being read: an empty body with "No JSON data provided", any other with
    the response of the validation. *)
Theorem refusals_stay_local `{Repr} `{IntOfStr}
    (req : http_request) (key : string) (data : json) (w : world) :
  header_x_api_key req = Some key ->
  key <> "" ->
  request_json req = Some data ->
  (truthy data = false ->
   post_api_queries req w
   = (Ret (error_response 400 (JStr "No JSON data provided")), w)) /\
  (forall refused,
     truthy data = true ->
     requested_sql_query data = Ret (inl refused) ->
     post_api_queries req w = (Ret refused, w) /\ http_status refused = 400).
Proof.
  intros Hkey Hne Hbody. apply String.eqb_neq in Hne.
  unfold post_api_queries, require_api_key. rewrite Hkey, Hne.
  unfold create_query_endpoint. rewrite Hbody. unfold_monad. split.
  - intros ->. reflexivity.
  - intros refused -> Hrun. rewrite Hrun. split; [reflexivity|].
    eapply requested_sql_query_refusal. eassumption.
Qed.

Lemma refusals_stay_local_witness :
  post_api_queries (post_with (JObj ∅)) (idle [])
  = (Ret (error_response 400 (JStr "No JSON data provided")), idle []) /\
  post_api_queries (post_with (JObj {[ "layer" := JStr "x" ]})) (idle [])
  = (Ret (missing_parameter "table"), idle []).
Proof.
  split.
  - destruct (refusals_stay_local (post_with (JObj ∅)) "k" (JObj ∅) (idle []))
      as [Hempty _].
    + reflexivity.
    + discriminate.
    + reflexivity.
    + apply Hempty. reflexivity.
  - destruct (refusals_stay_local (post_with (JObj {[ "layer" := JStr "x" ]}))
                "k" (JObj {[ "layer" := JStr "x" ]}) (idle []))
      as [_ Hrefused].
    + reflexivity.
    + discriminate.
    + reflexivity.
    + apply (Hrefused (missing_parameter "table")); vm_compute; reflexivity.
Defined.

(** ** The page number (lines 426-431) *)

(** X17.  A page number for which [int()] raises [ValueError], or whose
    value is below 1, is refused with a 400 before the readiness flag is
    read or anything is sent upstream. *)
Theorem page_number_refusals `{IntOfStr}
    (slug : string) (req : http_request) (key : string) (w : world) :
  header_x_api_key req = Some key ->
  key <> "" ->
  (requested_page req = None ->
   get_api_queries_results slug req w
   = (Ret (error_response 400 (JStr "Page number must be a valid integer")), w)) /\
  (forall page,
     requested_page req = Some page -> page < 1 ->
     get_api_queries_results slug req w
     = (Ret (error_response 400 (JStr "Page number must be a positive integer")),
        w)).
Proof.
  intros Hkey Hne. apply String.eqb_neq in Hne.
  unfold get_api_queries_results, require_api_key. rewrite Hkey, Hne.
  unfold execute_query_endpoint. split.
  - intros ->. reflexivity.
  - intros page -> Hpage.
    replace (page <? 1) with true by (symmetry; apply Z.ltb_lt; assumption).
    reflexivity.
Qed.

Lemma page_number_refusals_witness :
  get_api_queries_results "q" (page_request (Some "abc")) (idle [])
  = (Ret (error_response 400 (JStr "Page number must be a valid integer")), idle [])
  /\
  get_api_queries_results "q" (page_request (Some "0")) (idle [])
  = (Ret (error_response 400 (JStr "Page number must be a positive integer")),
     idle []).
Proof.
  split.
  - destruct (page_number_refusals "q" (page_request (Some "abc")) "k" (idle []))
      as [Hinvalid _].
    + reflexivity.
    + discriminate.
    + apply Hinvalid. vm_compute. reflexivity.
  - destruct (page_number_refusals "q" (page_request (Some "0")) "k" (idle []))
      as [_ Hlow].
    + reflexivity.
    + discriminate.
    + apply (Hlow 0); [vm_compute; reflexivity|lia].
Defined.

(** ** What the routes send *)

Lemma emits_ret P {A} (a : A) : emits P (mret a).
Proof. intros w. exists []. simpl. rewrite app_nil_r. auto. Qed.

Lemma emits_lift P {A} (o : outcome A) : emits P (lift o).
Proof. intros w. exists []. simpl. rewrite app_nil_r. auto. Qed.

Lemma emits_read P : emits P read_application_status.
Proof. intros w. exists []. simpl. rewrite app_nil_r. auto. Qed.

Lemma emits_assign P v : emits P (assign_application_status v).
Proof. intros w. exists []. simpl. rewrite app_nil_r. auto. Qed.

Lemma emits_sleep (P : event -> Prop) n : P (Sleep n) -> emits P (sleep n).
Proof. intros HP w. exists [Sleep n]. simpl. auto. Qed.

Lemma emits_send (P : event -> Prop) rq :
  (forall rp, P (Exchange rq rp)) -> emits P (send rq).
Proof.
  intros HP w. unfold send.
  destruct (upstream w) as [|[r|] rest]; eexists [_]; simpl; auto.
Qed.

Lemma emits_bind P {A B} (m : M A) (f : A -> M B) :
  emits P m -> (forall a, emits P (f a)) -> emits P (m ≫= f).
Proof.
  intros Hm Hf w. destruct (Hm w) as (evs & Htr & Hevs).
  unfold mbind, M_bind. destruct (m w) as [[a|e] w1]; simpl in *.
  - destruct (Hf a w1) as (evs' & Htr' & Hevs'). exists (evs ++ evs').
    rewrite Htr', Htr, <- app_assoc. split; [reflexivity|].
    apply Forall_app. auto.
  - exists evs. auto.
Qed.

Ltac emit :=
  repeat first
    [ apply emits_ret
    | apply emits_lift
    | apply emits_read
    | apply emits_assign
    | apply emits_sleep
    | apply emits_send; intros ?
    | apply emits_bind; [|intros ?]
    | match goal with
      | |- emits _ (if ?b then _ else _) => destruct b
      | |- emits _ (match ?x with _ => _ end) => destruct x
      | |- emits _ (let '(_, _) := ?x in _) => destruct x
      end ].

Lemma emits_wait_until_active (P : event -> Prop) key n :
  P (Sleep 5) -> (forall rp, P (Exchange (status_request key) rp)) ->
  forall data, emits P (wait_until_active key n data).
Proof.
  intros Hsleep Hget. induction n as [|n IH]; intros data;
    rewrite wait_until_active_unfold; unfold requests_get;
    fold (status_request key); emit; auto.
Qed.

Lemma emits_ensure (P : event -> Prop) key :
  P (Sleep 5) ->
  (forall rp, P (Exchange (status_request key) rp)) ->
  (forall rp, P (Exchange (start_request key) rp)) ->
  emits P (ensure_application_running key).
Proof.
  intros Hsleep Hget Hpost. unfold ensure_application_running.
  apply emits_bind; [apply emits_read|intros flag].
  apply emits_bind.
  { unfold requests_get. fold (status_request key). emit; auto. }
  intros confirmed. destruct confirmed; [apply emits_ret|].
  unfold requests_post. fold (start_request key).
  apply emits_bind; [apply emits_send; assumption|intros response].
  destruct (not_ok response); [apply emits_ret|].
  apply emits_bind; [apply emits_lift|intros data].
  apply emits_bind; [apply emits_wait_until_active; assumption|intros polled].
  emit.
Qed.

Lemma emits_wait_for_execution (P : event -> Prop) slug id key n :
  P (Sleep 2) -> (forall rp, P (Exchange (execution_request slug id key) rp)) ->
  forall e, emits P (wait_for_execution slug id key n e).
Proof.
  intros Hsleep Hget. induction n as [|n IH]; intros e;
    rewrite wait_for_execution_unfold; unfold requests_get;
    fold (execution_request slug id key); emit; auto.
Qed.

Lemma emits_execute_query (P : event -> Prop) slug page key :
  P (Sleep 2) ->
  (forall rp, P (Exchange (trigger_request slug page key) rp)) ->
  (forall id rp, P (Exchange (execution_request slug id key) rp)) ->
  (forall id rp, P (Exchange (results_request slug id key) rp)) ->
  (forall u rp, P (Exchange (download_request u) rp)) ->
  emits P (execute_query slug page key).
Proof.
  intros Hsleep Htrigger Hstatus Hresults Hdownload.
  rewrite execute_query_unfold. unfold requests_post, requests_get.
  fold (trigger_request slug page key).
  apply emits_bind; [apply emits_send; assumption|intros response].
  destruct (not_ok response); [apply emits_ret|].
  apply emits_bind; [apply emits_lift|intros execution].
  apply emits_bind; [apply emits_lift|intros id].
  fold (execution_request slug id key).
  apply emits_bind; [apply emits_send; apply Hstatus|intros response0].
  apply emits_bind; [apply emits_lift|intros execution0].
  apply emits_bind; [apply emits_wait_for_execution; auto|intros waited].
  unfold after_polling, process_parquet_in_memory, requests_get.
  fold (results_request slug id key).
  emit; auto; apply Hdownload.
Qed.

(** X18.  Whatever the request and the upstream, the creation route only
    sleeps five seconds at a time and only calls the application status,
    the application start and the query collection, each call with the
    [x-api-key] header of the request as it came; it never triggers an
    execution and never fetches a file. *)
Theorem creation_route_calls `{Repr} `{IntOfStr} (req : http_request) (w : world) :
  exists evs,
    trace (post_api_queries req w).2 = trace w ++ evs /\
    Forall (creation_call (header_x_api_key req)) evs.
Proof.
  revert w. change (emits (creation_call (header_x_api_key req))
                      (post_api_queries req)).
  unfold post_api_queries, require_api_key.
  destruct (header_x_api_key req) as [key|]; [|apply emits_ret].
  destruct (String.eqb key ""); [apply emits_ret|].
  unfold create_query_endpoint.
  apply emits_bind; [apply emits_lift|intros data].
  destruct (negb (truthy data)); [apply emits_ret|].
  apply emits_bind; [apply emits_lift|intros chosen].
  destruct chosen as [refused|sql]; [apply emits_ret|].
  apply emits_bind; [|intros [slug error]; emit].
  unfold create_query_and_return_slug.
  apply emits_bind.
  { apply emits_ensure; simpl; auto. }
  intros running. destruct (negb running); [apply emits_ret|].
  apply emits_bind; [|intros slug; emit].
  unfold create_query, requests_post. emit. simpl. auto.
Qed.

(** X19.  Whatever the request and the upstream, the results route for a
    slug only sleeps five or two seconds at a time, only calls the
    application and the executions of that very slug, each call with the
    [x-api-key] header of the request as it came, and fetches the result
    file by a GET that carries no header and no body: the credential is
    never sent to the presigned URL, and no query is created. *)
Theorem results_route_calls `{IntOfStr} (slug : string) (req : http_request) (w : world) :
  exists evs,
    trace (get_api_queries_results slug req w).2 = trace w ++ evs /\
    Forall (results_call slug (header_x_api_key req)) evs.
Proof.
  revert w. change (emits (results_call slug (header_x_api_key req))
                      (get_api_queries_results slug req)).
  unfold get_api_queries_results, require_api_key.
  destruct (header_x_api_key req) as [key|]; [|apply emits_ret].
  destruct (String.eqb key ""); [apply emits_ret|].
  unfold execute_query_endpoint.
  destruct (requested_page req) as [page|]; [|apply emits_ret].
  destruct (page <? 1); [apply emits_ret|].
  apply emits_bind.
  { apply emits_ensure; simpl; auto. }
  intros running. destruct (negb running); [apply emits_ret|].
  apply emits_bind; [|intros [df msg]; emit].
  apply emits_execute_query; simpl; auto.
Qed.

(** ** After a call that did not succeed (lines 76-119) *)

(** X20.  A call of ensure_application_running that returns [False] never
    leaves the flag set, so the next call, whatever its credential, skips
    the confirmation GET and begins with the start POST. *)
Theorem false_result_leaves_flag_unset
    (key : string) (w w' : world) (key' : string) :
  ensure_application_running key w = (Ret false, w') ->
  is_active (application_status w') = false /\
  exists rp evs,
    trace (ensure_application_running key' w').2
    = trace w' ++ Exchange (start_request key') rp :: evs.
Proof.
  intros Hrun.
  apply ensure_application_running_run in Hrun
    as (pre & rps & _ & _ & _ & _ & _ & _ & _ & Hfalse & _).
  specialize (Hfalse eq_refl). split; [assumption|].
  rewrite ensure_not_cached by assumption.
  destruct (start_application key' w') as [o w''] eqn:Hstart.
  apply start_application_run in Hstart as (start & rps' & Htr & _).
  exists start, (poll_events key' rps'). exact Htr.
Qed.

Lemma false_result_leaves_flag_unset_witness :
  let w := ready [status_reply 200 "stopped"; Reply bad_gateway;
                  status_reply 200 "active"] in
  let w' := {| application_status := None;
               upstream := [status_reply 200 "active"];
               trace := [Exchange (status_request "a") (status_reply 200 "stopped");
                         Exchange (start_request "a") (Reply bad_gateway)] |} in
  ensure_application_running "a" w = (Ret false, w') /\
  is_active (application_status w') = false /\
  exists rp evs,
    trace (ensure_application_running "b" w').2
    = trace w' ++ Exchange (start_request "b") rp :: evs.
Proof.
  intros w w'.
  assert (Hrun : ensure_application_running "a" w = (Ret false, w')).
  { vm_compute. reflexivity. }
  split; [exact Hrun|].
  exact (false_result_leaves_flag_unset "a" w w' "b" Hrun).
Defined.
